(** * sigtop: quote resolution and the JSON exporter

    A shallow embedding of [signal/quote.go] (the quote resolver) and of the
    JSON exporter ([jsonWriteMessages] and its helpers), with the properties
    of the specification stated and proved over it.

    Conventions.
    - Go's [int] and [int64] are modelled as [Z].  The only arithmetic the
      embedded code does on them is [depth + 1] below [maxDepth] and
      [len(msg.Edits) - i] on slice lengths, neither of which can leave the
      64-bit range.
    - Go strings are byte strings: Rocq's [string].
    - A Go pointer that may be nil is an [option]; a Go [(T, error)] result is
      a [result T].
    - Methods of [signal.Context], of [signal.Recipient] and the functions of
      the Go standard library that the two files call are section variables
      or, where the text of a claim depends on what they compute
      ([strconv.ParseInt], the [encoding/json] encoder), executable models. *)

From Stdlib Require Import ZArith List String Ascii Bool Lia.
From Stdlib Require Import Numbers.DecimalString Numbers.DecimalPos.
Import ListNotations.

Local Open Scope string_scope.
Local Open Scope Z_scope.
Local Open Scope list_scope.

Set Implicit Arguments.

(** ** Errors and results *)

(** The two failures of [strconv.ParseInt]. *)
Inductive numError : Type :=
| ErrSyntax
| ErrRange.

(** Go [error] values as the resolver produces them.  [ErrParseQuoteID] is
    [fmt.Errorf("cannot parse quote ID: %w", err)], [ErrQuoteWithoutAuthor]
    is [fmt.Errorf("quote without author")]; [ErrExternal] is an error handed
    up from a collaborator (recipient lookup, mention parsing, the database). *)
Inductive error : Type :=
| ErrParseQuoteID (cause : numError)
| ErrQuoteWithoutAuthor
| ErrExternal (msg : string).

Inductive result (A : Type) : Type :=
| Ok (a : A)
| Err (e : error).

Arguments Ok {A} a.
Arguments Err {A} e.

(** ** [json.Number] and its [Int64] method

    [json.Number] is a string holding the literal text of the number;
    [Int64] is [strconv.ParseInt(string(n), 10, 64)].  With an explicit base
    10 the parser accepts an optional sign followed by one or more decimal
    digits and nothing else, and reports a range error as soon as the
    magnitude leaves the 64-bit range. *)

Module strconv.

Definition maxUint64 : Z := 2 ^ 64 - 1.
Definition cutoffInt64 : Z := 2 ^ 63.

Definition digit (c : ascii) : option Z :=
  let n := Z.of_nat (nat_of_ascii c) in
  if (48 <=? n) && (n <=? 57) then Some (n - 48) else None.

(** The digit loop of [ParseUint]: [acc] is the value read so far. *)
Fixpoint parseDigits (acc : Z) (s : string) : sum numError Z :=
  match s with
  | EmptyString => inr acc
  | String c rest =>
      match digit c with
      | None => inl ErrSyntax
      | Some d =>
          let acc' := acc * 10 + d in
          if acc' >? maxUint64 then inl ErrRange else parseDigits acc' rest
      end
  end.

Definition ParseUint (s : string) : sum numError Z :=
  match s with
  | EmptyString => inl ErrSyntax
  | _ => parseDigits 0 s
  end.

Definition ParseInt (s : string) : sum numError Z :=
  match s with
  | EmptyString => inl ErrSyntax
  | String c rest =>
      let '(neg, body) :=
        if Ascii.eqb c "+" then (false, rest)
        else if Ascii.eqb c "-" then (true, rest)
        else (false, s) in
      match ParseUint body with
      | inl e => inl e
      | inr un =>
          if negb neg && (cutoffInt64 <=? un) then inl ErrRange
          else if neg && (cutoffInt64 <? un) then inl ErrRange
          else inr (if neg then - un else un)
      end
  end.

End strconv.

Module json.

Definition Number : Type := string.

Definition Int64 (n : Number) : sum numError Z := strconv.ParseInt n.

End json.

(** ** The [encoding/json] encoder, as [jsonWriteMessages] configures it

    The exporter hands its export model to a [json.Encoder] after
    [SetIndent(prefix, indent)] and [SetEscapeHTML(flag)].  The model below
    follows the encoder of the Go standard library on the values that the
    export records contain: strings, integers, slices of structs and structs
    (pointers to structs included). *)

Definition byteOf (c : ascii) : Z := Z.of_nat (nat_of_ascii c).

Definition doubleQuote : string := String "034"%char EmptyString.
Definition newline : string := String "010"%char EmptyString.

Module encoding.

(** A JSON document as the encoder sees it. *)
#[warnings="-register-all"]
Inductive value : Type :=
| JString (s : string)
| JInt (n : Z)
| JArray (items : list value)
| JObject (members : list (string * value)).

Record config : Type := mkConfig {
  indentPrefix : string;
  indentValue : string;
  escapeHTML : bool
}.

Definition hexDigit (n : Z) : ascii :=
  match String.get (Z.to_nat n) "0123456789abcdef" with
  | Some c => c
  | None => "0"%char
  end.

(** [safeSet] and, with [esc], [htmlSafeSet], on bytes below 0x80. *)
Definition safeByte (esc : bool) (b : ascii) : bool :=
  let n := byteOf b in
  (32 <=? n) && negb (n =? 34) && negb (n =? 92)
  && negb (esc && ((n =? 60) || (n =? 62) || (n =? 38))).

(** What [appendString] writes for a byte below 0x80. *)
Definition escapeByte (esc : bool) (b : ascii) : string :=
  let n := byteOf b in
  if safeByte esc b then String b EmptyString
  else if (n =? 92) || (n =? 34) then String "\"%char (String b EmptyString)
  else if n =? 8 then "\b"
  else if n =? 12 then "\f"
  else if n =? 10 then "\n"
  else if n =? 13 then "\r"
  else if n =? 9 then "\t"
  else ("\u00" ++ String (hexDigit (n / 16)) (String (hexDigit (n mod 16)) EmptyString))%string.

Definition byteIn (lo hi : Z) (s : string) (i : nat) : bool :=
  match String.get i s with
  | Some c => (lo <=? byteOf c) && (byteOf c <=? hi)
  | None => false
  end.

(** A rune of [size] bytes at the head of [s] is accepted when its second
    byte lies between [lo] and [hi] and the bytes after it between 0x80 and
    0xBF. *)
Definition acceptRune (s : string) (lo hi : Z) (size : nat) : option nat :=
  if byteIn lo hi s 1
     && (Nat.leb size 2 || byteIn 128 191 s 2)
     && (Nat.leb size 3 || byteIn 128 191 s 3)
  then Some size else None.

(** [utf8.DecodeRuneInString] at the head of [s], reduced to the length of
    the encoding; [None] is [RuneError] with size 1. *)
Definition decodeRuneSize (s : string) : option nat :=
  match s with
  | EmptyString => None
  | String b _ =>
      let x := byteOf b in
      if (194 <=? x) && (x <=? 223) then acceptRune s 128 191 2
      else if x =? 224 then acceptRune s 160 191 3
      else if x =? 237 then acceptRune s 128 159 3
      else if (225 <=? x) && (x <=? 239) then acceptRune s 128 191 3
      else if x =? 240 then acceptRune s 144 191 4
      else if (241 <=? x) && (x <=? 243) then acceptRune s 128 191 4
      else if x =? 244 then acceptRune s 128 143 4
      else None
  end.

(** The UTF-8 encodings of U+2028 and U+2029. *)
Definition lineSeparator : string :=
  String "226"%char (String "128"%char (String "168"%char EmptyString)).
Definition paragraphSeparator : string :=
  String "226"%char (String "128"%char (String "169"%char EmptyString)).

(** The loop of [appendString]; [skip] counts the bytes of the current
    rune that have been consumed already. *)
Fixpoint appendStringFrom (esc : bool) (skip : nat) (s : string) : string :=
  match s with
  | EmptyString => EmptyString
  | String b rest =>
      match skip with
      | S k => appendStringFrom esc k rest
      | O =>
          if byteOf b <? 128 then (escapeByte esc b ++ appendStringFrom esc 0 rest)%string
          else
            match decodeRuneSize s with
            | None => ("\ufffd" ++ appendStringFrom esc 0 rest)%string
            | Some size =>
                let rune := String.substring 0 size s in
                ((if String.eqb rune lineSeparator then "\u2028"
                  else if String.eqb rune paragraphSeparator then "\u2029"
                  else rune)
                 ++ appendStringFrom esc (size - 1) rest)%string
            end
      end
  end.

Definition appendString (esc : bool) (s : string) : string :=
  (doubleQuote ++ appendStringFrom esc 0 s ++ doubleQuote)%string.

(** [strconv.AppendInt(b, n, 10)]. *)
Definition appendInt (n : Z) : string := NilZero.string_of_int (Z.to_int n).

Fixpoint repeatString (s : string) (n : nat) : string :=
  match n with
  | O => EmptyString
  | S k => (s ++ repeatString s k)%string
  end.

(** [appendNewline]: a line feed, the prefix and [depth] indents. *)
Definition appendNewline (cfg : config) (depth : nat) : string :=
  (newline ++ indentPrefix cfg ++ repeatString (indentValue cfg) depth)%string.

(** The elements of an array or the members of an object, each already
    rendered, separated by a comma and a new line at [depth]. *)
Fixpoint joinItems (cfg : config) (depth : nat) (items : list string) : string :=
  match items with
  | [] => EmptyString
  | [x] => x
  | x :: rest => (x ++ "," ++ appendNewline cfg depth ++ joinItems cfg depth rest)%string
  end.

(** The indented encoding of a value that starts at nesting [depth]. *)
Fixpoint render (cfg : config) (depth : nat) (v : value) {struct v} : string :=
  match v with
  | JString s => appendString (escapeHTML cfg) s
  | JInt n => appendInt n
  | JArray [] => "[]"
  | JArray items =>
      ("[" ++ appendNewline cfg (S depth)
           ++ joinItems cfg (S depth) (map (render cfg (S depth)) items)
           ++ appendNewline cfg depth ++ "]")%string
  | JObject [] => "{}"
  | JObject members =>
      ("{" ++ appendNewline cfg (S depth)
           ++ joinItems cfg (S depth)
                (map (fun kv => let '(k, x) := kv in
                                (appendString (escapeHTML cfg) k ++ ": "
                                   ++ render cfg (S depth) x)%string) members)
           ++ appendNewline cfg depth ++ "}")%string
  end.

(** [Encoder.Encode]: the value, indented, and a final line feed. *)
Definition Encode (cfg : config) (v : value) : string :=
  (render cfg 0 v ++ newline)%string.

End encoding.

(** ** The export records and their JSON form *)

(** The export records.  A field is named after the Go field, prefixed by
    its struct where several structs share the name. *)
Record jsonAttachment : Type := mkJsonAttachment {
  jattFileName : string;
  jattContentType : string;
  jattSize : Z
}.

Record jsonReaction : Type := mkJsonReaction {
  jrctEmoji : string;
  jrctFrom : string
}.

#[warnings="-register-all"]
Inductive jsonQuote : Type := mkJsonQuote {
  jquoteFrom : string;
  jquoteSent : string;
  jquoteBody : string;
  jquoteAttachments : list jsonAttachment;
  jquoteQuote : option jsonQuote
}.

Record jsonEdit : Type := mkJsonEdit {
  jedVersion : Z;
  jedSent : string;
  jedBody : string;
  jedAttachments : list jsonAttachment;
  jedQuote : option jsonQuote
}.

Record jsonGroupV2Change : Type := mkJsonGroupV2Change {
  jgcAction : string;
  jgcWho : string;
  jgcInvitedBy : string;
  jgcCount : Z;
  jgcNewTitle : string;
  jgcDescription : string
}.

Record jsonMessage : Type := mkJsonMessage {
  jmsgFrom : string;
  jmsgType : string;
  jmsgSent : string;
  jmsgSentUnix : Z;
  jmsgReceived : string;
  jmsgBody : string;
  jmsgAttachments : list jsonAttachment;
  jmsgReactions : list jsonReaction;
  jmsgQuote : option jsonQuote;
  jmsgEdits : list jsonEdit;
  jmsgGroupV2Change : list jsonGroupV2Change
}.

Record jsonExport : Type := mkJsonExport {
  jexConversation : string;
  jexMessages : list jsonMessage
}.

(** The struct tags.  A field tagged [omitempty] is left out when it is the
    empty string, zero, a nil pointer or an empty slice. *)
Definition fieldString (name : string) (s : string) : list (string * encoding.value) :=
  [(name, encoding.JString s)].

Definition fieldInt (name : string) (n : Z) : list (string * encoding.value) :=
  [(name, encoding.JInt n)].

Definition omitemptyString (name : string) (s : string) : list (string * encoding.value) :=
  if String.eqb s "" then [] else [(name, encoding.JString s)].

Definition omitemptyInt (name : string) (n : Z) : list (string * encoding.value) :=
  if n =? 0 then [] else [(name, encoding.JInt n)].

Definition omitemptySlice (name : string) (items : list encoding.value)
    : list (string * encoding.value) :=
  match items with
  | [] => []
  | _ => [(name, encoding.JArray items)]
  end.

Definition omitemptyPtr (name : string) (v : option encoding.value)
    : list (string * encoding.value) :=
  match v with
  | None => []
  | Some x => [(name, x)]
  end.

Definition marshalAttachment (a : jsonAttachment) : encoding.value :=
  encoding.JObject
    (omitemptyString "filename" (jattFileName a)
     ++ fieldString "content_type" (jattContentType a)
     ++ fieldInt "size" (jattSize a)).

Definition marshalReaction (r : jsonReaction) : encoding.value :=
  encoding.JObject
    (fieldString "emoji" (jrctEmoji r) ++ fieldString "from" (jrctFrom r)).

Fixpoint marshalQuote (q : jsonQuote) : encoding.value :=
  match q with
  | mkJsonQuote from sent body atts quoted =>
      encoding.JObject
        (fieldString "from" from
         ++ omitemptyString "sent" sent
         ++ omitemptyString "body" body
         ++ omitemptySlice "attachments" (map marshalAttachment atts)
         ++ omitemptyPtr "quote"
              (match quoted with
               | None => None
               | Some q' => Some (marshalQuote q')
               end))
  end.

Definition marshalEdit (e : jsonEdit) : encoding.value :=
  encoding.JObject
    (fieldInt "version" (jedVersion e)
     ++ omitemptyString "sent" (jedSent e)
     ++ omitemptyString "body" (jedBody e)
     ++ omitemptySlice "attachments" (map marshalAttachment (jedAttachments e))
     ++ omitemptyPtr "quote" (option_map marshalQuote (jedQuote e))).

Definition marshalGroupV2Change (g : jsonGroupV2Change) : encoding.value :=
  encoding.JObject
    (fieldString "action" (jgcAction g)
     ++ omitemptyString "who" (jgcWho g)
     ++ omitemptyString "invited_by" (jgcInvitedBy g)
     ++ omitemptyInt "count" (jgcCount g)
     ++ omitemptyString "new_title" (jgcNewTitle g)
     ++ omitemptyString "description" (jgcDescription g)).

Definition marshalMessage (m : jsonMessage) : encoding.value :=
  encoding.JObject
    (fieldString "from" (jmsgFrom m)
     ++ fieldString "type" (jmsgType m)
     ++ omitemptyString "sent" (jmsgSent m)
     ++ omitemptyInt "sent_unix" (jmsgSentUnix m)
     ++ omitemptyString "received" (jmsgReceived m)
     ++ omitemptyString "body" (jmsgBody m)
     ++ omitemptySlice "attachments" (map marshalAttachment (jmsgAttachments m))
     ++ omitemptySlice "reactions" (map marshalReaction (jmsgReactions m))
     ++ omitemptyPtr "quote" (option_map marshalQuote (jmsgQuote m))
     ++ omitemptySlice "edits" (map marshalEdit (jmsgEdits m))
     ++ omitemptySlice "group_changes"
          (map marshalGroupV2Change (jmsgGroupV2Change m))).

(** [export.Messages] is made with [make] and is never nil, so that it is
    encoded as an array also when it is empty. *)
Definition marshalExport (e : jsonExport) : encoding.value :=
  encoding.JObject
    (fieldString "conversation" (jexConversation e)
     ++ [("messages", encoding.JArray (map marshalMessage (jexMessages e)))]).

(** The member of an encoded record with the given key, if it is emitted. *)
Fixpoint lookupField (name : string) (fields : list (string * encoding.value))
    : option encoding.value :=
  match fields with
  | [] => None
  | (k, v) :: rest => if String.eqb k name then Some v else lookupField name rest
  end.

Definition member (name : string) (v : encoding.value) : option encoding.value :=
  match v with
  | encoding.JObject fields => lookupField name fields
  | _ => None
  end.

(** The encoder of [jsonWriteMessages]:
    [enc.SetIndent("", "  "); enc.SetEscapeHTML(false)]. *)
Definition exportConfig : encoding.config :=
  encoding.mkConfig "" "  " false.

(** The document that [enc.Encode(export)] writes. *)
Definition renderExport (e : jsonExport) : string :=
  encoding.Encode exportConfig (marshalExport e).

(** No byte of [s] is a line feed. *)
Fixpoint noLineFeed (s : string) : bool :=
  match s with
  | EmptyString => true
  | String b rest => negb (byteOf b =? 10) && noLineFeed rest
  end.

(** No byte of [s] is a space or a line feed. *)
Fixpoint solidText (s : string) : bool :=
  match s with
  | EmptyString => true
  | String b rest => negb (byteOf b =? 10) && negb (byteOf b =? 32) && solidText rest
  end.

(** *** The lines of a document

    The specification asks for a document that is nested with two-space
    indentation.  [layout] says what that means for a value, without looking
    at the encoder: the lines of the value, each with the nesting level of
    the element it belongs to.  A value at level [depth] continues the line
    it starts on, which already holds [prefix], and is followed on its last
    line by [suffix].  The items of an array and the members of an object
    are one level deeper than the brackets around them; each starts a line
    of its own, a member behind its key, and each but the last is followed
    by a comma.  The closing bracket is on a line of its own, at the level
    of the opening one.  An empty array or object stays on its line. *)
Definition line : Type := (nat * string)%type.

(** The lines of a sequence of items that [layoutItem] lays out. *)
Definition layoutSeq (A : Type) (layoutItem : A -> string -> list line)
    : list A -> list line :=
  fix go (items : list A) : list line :=
    match items with
    | [] => []
    | x :: rest =>
        match rest with
        | [] => layoutItem x ""
        | _ :: _ => layoutItem x "," ++ go rest
        end
    end.

Fixpoint layout (esc : bool) (depth : nat) (prefix : string) (v : encoding.value)
    (suffix : string) {struct v} : list line :=
  match v with
  | encoding.JString s => [(depth, (prefix ++ encoding.appendString esc s ++ suffix)%string)]
  | encoding.JInt n => [(depth, (prefix ++ encoding.appendInt n ++ suffix)%string)]
  | encoding.JArray [] => [(depth, (prefix ++ "[]" ++ suffix)%string)]
  | encoding.JArray items =>
      (depth, (prefix ++ "[")%string)
        :: layoutSeq (fun x sfx => layout esc (S depth) "" x sfx) items
        ++ [(depth, ("]" ++ suffix)%string)]
  | encoding.JObject [] => [(depth, (prefix ++ "{}" ++ suffix)%string)]
  | encoding.JObject members =>
      (depth, (prefix ++ "{")%string)
        :: layoutSeq (fun kv sfx =>
                        let '(k, x) := kv in
                        layout esc (S depth)
                               (encoding.appendString esc k ++ ": ")%string x sfx)
                     members
        ++ [(depth, ("}" ++ suffix)%string)]
  end.

(** A line as it is written: two spaces for each level, then its text. *)
Definition indentLine (l : line) : string :=
  (encoding.repeatString "  " (fst l) ++ snd l)%string.

(** Lines, each ended by a line feed. *)
Fixpoint unlines (lines : list string) : string :=
  match lines with
  | [] => EmptyString
  | l :: rest => (l ++ newline ++ unlines rest)%string
  end.

(** The text of a line: it holds no line feed and starts with a byte that
    is not a space, so that the spaces before it are all of the line's
    indentation. *)
Definition lineText (t : string) : bool :=
  noLineFeed t
  && match t with
     | EmptyString => false
     | String b _ => negb (byteOf b =? 32)
     end.

(** The markup characters that HTML escaping would replace. *)
Definition markupByte (b : ascii) : bool :=
  (byteOf b =? 60) || (byteOf b =? 62) || (byteOf b =? 38).

(** Text that JSON itself leaves alone: bytes from 0x20 to 0x7f other than
    the double quote and the backslash.  The markup characters [<], [>] and
    [&] are among them. *)
Definition plainByte (b : ascii) : bool :=
  (32 <=? byteOf b) && (byteOf b <? 128)
  && negb (byteOf b =? 34) && negb (byteOf b =? 92).

Fixpoint plainText (s : string) : bool :=
  match s with
  | EmptyString => true
  | String b rest => plainByte b && plainText rest
  end.

(** ** The data model of [signal/quote.go] *)

Record quoteAttachmentJSON : Type := mkQuoteAttachmentJSON {
  jaContentType : string;
  jaFileName : string
}.

Record QuoteAttachment : Type := mkQuoteAttachment {
  qaFileName : string;
  qaContentType : string
}.

Section Model.

(** [signal.Recipient], [signal.Mention] and [mentionJSON] are declared in
    files of the package that the resolver only refers to. *)
Variable Recipient : Type.
Variable Mention : Type.
Variable mentionJSON : Type.

Record quoteJSON : Type := mkQuoteJSON {
  jqAttachments : list quoteAttachmentJSON;
  jqAuthor : string;
  jqAuthorUUID : string;
  jqAuthorACI : string;
  jqMentions : list mentionJSON;
  jqID : option json.Number;
  jqText : string
}.

Record MessageBody : Type := mkMessageBody {
  Text : string;
  Mentions : list Mention
}.

#[warnings="-register-all"]
Inductive Quote : Type := mkQuote {
  qRecipient : option Recipient;
  qTimeSent : Z;
  qBody : MessageBody;
  qAttachments : list QuoteAttachment;
  QuotedQuote : option Quote
}.

(** The [messages] table as the resolver sees it through
    [SELECT json FROM messages WHERE sent_at = ? LIMIT 1]: rows of
    [(sent_at, json)], the first matching row being the one returned.
    [dbPrepareErr] and [dbBindErr] are the failures that [Prepare] and
    [BindInt64] may report. *)
Record Database : Type := mkDatabase {
  dbPrepareErr : option error;
  dbBindErr : Z -> option error;
  dbMessages : list (Z * string)
}.

(** [signal.Context], reduced to what the resolver and the exporter use:
    the database handle and the lookups whose bodies live elsewhere in the
    package.  The lookups have Go's result type [( *Recipient, error)]. *)
Record Context : Type := mkContext {
  db : Database;
  recipientFromACI : string -> result (option Recipient);
  recipientFromPhone : string -> result (option Recipient);
  parseMentionJSON : list mentionJSON -> result (list Mention);
  SelfRecipient : result (option Recipient)
}.

(** The attachment content type that marks a long-message attachment. *)
Variable LongTextType : string.

(** [json.Unmarshal] of a stored message payload into
    [struct { Quote *quoteJSON `json:"quote"` }]: [None] is a decoding
    error, [Some None] a payload without a quote. *)
Variable unmarshalMessageQuote : string -> option (option quoteJSON).

Definition maxDepth : Z := 10.

(** [stmt.Step()] followed by [stmt.ColumnText(0)]. *)
Fixpoint stepRow (rows : list (Z * string)) (sentAt : Z) : option string :=
  match rows with
  | [] => None
  | (ts, js) :: rest => if ts =? sentAt then Some js else stepRow rest sentAt
  end.

(** The loop over [jqte.Attachments]. *)
Fixpoint quoteAttachments (jatts : list quoteAttachmentJSON) : list QuoteAttachment :=
  match jatts with
  | [] => []
  | jatt :: rest =>
      if String.eqb (jaContentType jatt) LongTextType then quoteAttachments rest
      else mkQuoteAttachment (jaFileName jatt) (jaContentType jatt)
             :: quoteAttachments rest
  end.

(** The [switch] that picks the author of a quote. *)
Definition quoteAuthor (c : Context) (jqte : quoteJSON) : result (option Recipient) :=
  if negb (String.eqb (jqAuthorACI jqte) "") then recipientFromACI c (jqAuthorACI jqte)
  else if negb (String.eqb (jqAuthorUUID jqte) "") then recipientFromACI c (jqAuthorUUID jqte)
  else if negb (String.eqb (jqAuthor jqte) "") then recipientFromPhone c (jqAuthor jqte)
  else Err ErrQuoteWithoutAuthor.

(** The [if jqte.ID == nil ... else if ...Int64()] statement. *)
Definition quoteTimeSent (jqte : quoteJSON) : result Z :=
  match jqID jqte with
  | None => Ok (-1)
  | Some num =>
      match json.Int64 num with
      | inr v => Ok v
      | inl e => Err (ErrParseQuoteID e)
      end
  end.

(** [findQuoteOfMessage], with the call back into the resolver left open:
    [resolve] is [parseQuoteJSONWithDepth].  The outer [option] of
    [resolve] and of the result is the fuel of the recursion below, [None]
    meaning that the computation has not finished. *)
Definition findQuoteOfMessageWith
    (resolve : option quoteJSON -> Z -> option (result (option Quote)))
    (c : Context) (sentAt : Z) (depth : Z) : option (result (option Quote)) :=
  match dbPrepareErr (db c) with
  | Some e => Some (Err e)
  | None =>
      match dbBindErr (db c) sentAt with
      | Some e => Some (Err e)
      | None =>
          match stepRow (dbMessages (db c)) sentAt with
          | None => Some (Ok None)
          | Some jsonStr =>
              if String.eqb jsonStr "" then Some (Ok None)
              else
                match unmarshalMessageQuote jsonStr with
                | None => Some (Ok None)
                | Some None => Some (Ok None)
                | Some (Some q) => resolve (Some q) depth
                end
          end
      end
  end.

(** [parseQuoteJSONWithDepth], by recursion on fuel: every call of the
    function uses one unit. *)
Fixpoint parseQuoteJSONWithDepthFuel (fuel : nat) (c : Context)
    (jqte : option quoteJSON) (depth : Z) : option (result (option Quote)) :=
  match fuel with
  | O => None
  | S fuel' =>
      match jqte with
      | None => Some (Ok None)
      | Some j =>
          if depth >=? maxDepth then Some (Ok None)
          else
            match quoteTimeSent j with
            | Err e => Some (Err e)
            | Ok timeSent =>
                match quoteAuthor c j with
                | Err e => Some (Err e)
                | Ok rpt =>
                    match parseMentionJSON c (jqMentions j) with
                    | Err e => Some (Err e)
                    | Ok mentions =>
                        let body := mkMessageBody (jqText j) mentions in
                        let atts := quoteAttachments (jqAttachments j) in
                        if timeSent >? 0 then
                          match findQuoteOfMessageWith
                                  (parseQuoteJSONWithDepthFuel fuel' c)
                                  c timeSent (depth + 1) with
                          | None => None
                          | Some r =>
                              let quotedQuote :=
                                match r with
                                | Ok q => q
                                | Err _ => None
                                end in
                              Some (Ok (Some (mkQuote rpt timeSent body atts quotedQuote)))
                          end
                        else Some (Ok (Some (mkQuote rpt timeSent body atts None)))
                    end
                end
            end
      end
  end.

Definition findQuoteOfMessageFuel (fuel : nat) (c : Context)
    (sentAt : Z) (depth : Z) : option (result (option Quote)) :=
  findQuoteOfMessageWith (parseQuoteJSONWithDepthFuel fuel c) c sentAt depth.


(** [parseQuoteJSON]: resolution starts at depth 0. *)
Definition parseQuoteJSONFuel (fuel : nat) (c : Context)
    (jqte : option quoteJSON) : option (result (option Quote)) :=
  parseQuoteJSONWithDepthFuel fuel c jqte 0.

(** The big-step reading of the resolver: the call returns [r]. *)
Definition resolves (c : Context) (jqte : option quoteJSON) (depth : Z)
    (r : result (option Quote)) : Prop :=
  exists fuel, parseQuoteJSONWithDepthFuel fuel c jqte depth = Some r.

(** The number of quotes on the chain that starts at [q], [q] included. *)
Fixpoint chainLength (q : Quote) : nat :=
  match q with
  | mkQuote _ _ _ _ None => 1
  | mkQuote _ _ _ _ (Some q') => S (chainLength q')
  end.

Definition chainLengthOpt (q : option Quote) : nat :=
  match q with
  | None => 0
  | Some q' => chainLength q'
  end.

(** The authors along the chain that starts at [q], [q] first. *)
Fixpoint chainAuthors (q : Quote) : list (option Recipient) :=
  match q with
  | mkQuote rpt _ _ _ None => [rpt]
  | mkQuote rpt _ _ _ (Some q') => rpt :: chainAuthors q'
  end.

(** The nested link that a quote gets from the outcome [r] of its chain
    step: [if err != nil { quotedQuote = nil }]. *)
Definition chainLink (r : result (option Quote)) : option Quote :=
  match r with
  | Ok q => q
  | Err _ => None
  end.

(** The fuel that a call at [depth] needs. *)
Definition fuelFor (depth : Z) : nat := S (Z.to_nat (maxDepth - depth)).

(** Modelled from the spec: [recipientFromACI] and [recipientFromPhone] are
    methods of [signal.Context] whose bodies are in a file of the package
    that is not among the sources.  The specification describes the author
    of a quote as a Recipient reference that is never optional once
    resolution succeeds, and the recipient's identity as resolved by the
    store adapter: a lookup that reports no error yields a recipient. *)
Definition lookupsResolve (c : Context) : Prop :=
  (forall aci : string, recipientFromACI c aci <> Ok None)
  /\ (forall phone : string, recipientFromPhone c phone <> Ok None).

(** ** The data model of the exporter *)

(** The types of package [signal] that the exporter reads, with the fields
    it reads. *)
Record Attachment : Type := mkAttachment {
  attFileName : string;
  attContentType : string;
  attSize : Z
}.

Record Reaction : Type := mkReaction {
  rctRecipient : option Recipient;
  rctEmoji : string
}.

Record Edit : Type := mkEdit {
  edTimeEdit : Z;
  edBody : MessageBody;
  edAttachments : list Attachment;
  edQuote : option Quote
}.

Record GroupV2Change : Type := mkGroupV2Change {
  gcType : string;
  gcWho : option Recipient;
  gcInviter : option Recipient;
  gcCount : Z;
  gcNewTitle : string;
  gcDescription : string
}.

Record Message : Type := mkMessage {
  msgConversation : option Recipient;
  msgSource : option Recipient;
  msgTimeSent : Z;
  msgTimeRecv : Z;
  msgType : string;
  msgBody : MessageBody;
  msgAttachments : list Attachment;
  msgReactions : list Reaction;
  msgEdits : list Edit;
  msgGroupV2Change : list GroupV2Change;
  msgQuote : option Quote
}.

(** Methods and library functions the exporter calls.
    [DetailedDisplayName] has a pointer receiver and is called on pointers
    that may be nil; [IsOutgoing] is a method of [signal.Message];
    [timeFormat msec] is
    [time.UnixMilli(msec).Format("2006-01-02 15:04:05")], which depends on
    the time zone of the process. *)
Variable DetailedDisplayName : option Recipient -> string.
Variable IsOutgoing : Message -> bool.
Variable timeFormat : Z -> string.

Definition formatTime (msec : Z) : string :=
  if msec <=? 0 then "" else timeFormat msec.

Definition convertAttachments (atts : list Attachment) : list jsonAttachment :=
  match atts with
  | [] => []
  | _ => map (fun att => mkJsonAttachment (attFileName att) (attContentType att)
                           (attSize att)) atts
  end.

(** [convertQuote] on a non-nil quote. *)
Fixpoint convertQuoteOf (qte : Quote) : jsonQuote :=
  match qte with
  | mkQuote rpt timeSent body atts quoted =>
      mkJsonQuote
        (DetailedDisplayName rpt)
        (if timeSent >? 0 then formatTime timeSent else "")
        (Text body)
        (map (fun att => mkJsonAttachment (qaFileName att) (qaContentType att) 0) atts)
        (match quoted with
         | None => None
         | Some q' => Some (convertQuoteOf q')
         end)
  end.

Definition convertQuote (qte : option Quote) : option jsonQuote :=
  match qte with
  | None => None
  | Some q => Some (convertQuoteOf q)
  end.

(** A quote and its exported form agree: the exported quote shows the
    display name of the author, the formatted sent time when the timestamp
    is positive, the body text and the attachments (file name and content
    type) of the quote, and it has a nested quote exactly when the quote has
    one, the two agreeing in the same way. *)
Fixpoint quoteExportedAs (q : Quote) (jq : jsonQuote) : Prop :=
  match q, jq with
  | mkQuote rpt timeSent body atts quoted, mkJsonQuote from sent jbody jatts jquoted =>
      from = DetailedDisplayName rpt
      /\ sent = (if timeSent >? 0 then formatTime timeSent else "")
      /\ jbody = Text body
      /\ jatts = map (fun att => mkJsonAttachment (qaFileName att) (qaContentType att) 0)
                     atts
      /\ match quoted, jquoted with
         | None, None => True
         | Some q', Some jq' => quoteExportedAs q' jq'
         | _, _ => False
         end
  end.

(** The [from] labels along the chain of an exported quote. *)
Fixpoint chainFroms (jq : jsonQuote) : list string :=
  match jq with
  | mkJsonQuote from _ _ _ None => [from]
  | mkJsonQuote from _ _ _ (Some jq') => from :: chainFroms jq'
  end.

Definition formatGroupV2ChangeAction (actionType : string) : string :=
  if String.eqb actionType "member-add" then "Member added"
  else if String.eqb actionType "member-remove" then "Member removed"
  else if String.eqb actionType "member-add-from-invite" then "Member joined from invite"
  else if String.eqb actionType "member-add-from-link" then "Member joined via link"
  else if String.eqb actionType "pending-add-many" then "Invitations sent"
  else if String.eqb actionType "admin-approval-add-one" then "Requested to join"
  else if String.eqb actionType "title" then "Title changed"
  else if String.eqb actionType "description" then "Description changed"
  else if String.eqb actionType "avatar" then "Avatar changed"
  else if String.eqb actionType "access-attributes" then "Group settings changed"
  else if String.eqb actionType "announcements-only" then "Announcements only mode changed"
  else if String.eqb actionType "access-members" then "Member access changed"
  else if String.eqb actionType "member-privilege" then "Member privilege changed"
  else actionType.

(** The loop [for i, edit := range msg.Edits], started at index [i] with
    [n = len(msg.Edits)]. *)
Fixpoint convertEditsFrom (n : Z) (i : Z) (edits : list Edit) : list jsonEdit :=
  match edits with
  | [] => []
  | edit :: rest =>
      mkJsonEdit (n - i)
                 (formatTime (edTimeEdit edit))
                 (Text (edBody edit))
                 (convertAttachments (edAttachments edit))
                 (convertQuote (edQuote edit))
        :: convertEditsFrom n (i + 1) rest
  end.

Definition convertEdits (edits : list Edit) : list jsonEdit :=
  convertEditsFrom (Z.of_nat (List.length edits)) 0 edits.

(** The body of the loop over [msg.GroupV2Change].  [Count] is first set
    to [gc.Count] and then, when [gc.Count == 0], assigned 0. *)
Definition convertGroupV2Change (gc : GroupV2Change) : jsonGroupV2Change :=
  mkJsonGroupV2Change
    (formatGroupV2ChangeAction (gcType gc))
    (match gcWho gc with
     | Some _ => DetailedDisplayName (gcWho gc)
     | None => ""
     end)
    (match gcInviter gc with
     | Some _ => DetailedDisplayName (gcInviter gc)
     | None => ""
     end)
    (if gcCount gc =? 0 then 0 else gcCount gc)
    (gcNewTitle gc)
    (gcDescription gc).

(** The body of the loop over [msgs] in [jsonWriteMessages]: the export
    record of one message. *)
Definition convertMessage (selfName : string) (msg : Message) : jsonMessage :=
  let from :=
    if IsOutgoing msg then selfName
    else match msgSource msg with
         | Some _ => DetailedDisplayName (msgSource msg)
         | None => ""
         end in
  let '(sent, sentUnix) :=
    if negb (msgTimeSent msg =? 0)
    then (formatTime (msgTimeSent msg), msgTimeSent msg)
    else ("", 0) in
  let received :=
    if negb (IsOutgoing msg) && negb (msgTimeRecv msg =? 0)
    then formatTime (msgTimeRecv msg)
    else "" in
  let '(body, quote) :=
    match msgEdits msg with
    | [] => (Text (msgBody msg), convertQuote (msgQuote msg))
    | _ :: _ => ("", None)
    end in
  let attachments := convertAttachments (msgAttachments msg) in
  let reactions :=
    map (fun rct => mkJsonReaction (rctEmoji rct)
                      (DetailedDisplayName (rctRecipient rct)))
        (msgReactions msg) in
  let edits :=
    if 0 <? Z.of_nat (List.length (msgEdits msg)) then convertEdits (msgEdits msg)
    else [] in
  let groupChanges := map convertGroupV2Change (msgGroupV2Change msg) in
  mkJsonMessage from (msgType msg) sent sentUnix received body attachments
                reactions quote edits groupChanges.

(** The name under which outgoing messages are exported. *)
Definition selfName (c : Context) : string :=
  match SelfRecipient c with
  | Ok (Some selfRpt) => DetailedDisplayName (Some selfRpt)
  | _ => "You"
  end.

(** The export model that [jsonWriteMessages] assembles; [None] is the
    run-time panic of [msgs[0]] on an empty slice. *)
Definition assembleExport (c : Context) (msgs : list Message) : option jsonExport :=
  match msgs with
  | [] => None
  | first :: _ =>
      Some (mkJsonExport (DetailedDisplayName (msgConversation first))
                         (map (convertMessage (selfName c)) msgs))
  end.

(** [errio.Writer]: the sink and its sticky error.  [ewWrite] is its
    [Write] method, called once by [Encoder.Encode] with the whole
    document; [ewErr] is its [Err] method. *)
Variable Writer : Type.
Variable ewWrite : Writer -> string -> Writer * option error.
Variable ewErr : Writer -> option error.

(** [jsonWriteMessages]: the writer after the call and the error returned;
    [None] is the panic on an empty [msgs]. *)
Definition jsonWriteMessages (c : Context) (ew : Writer) (msgs : list Message)
    : option (Writer * option error) :=
  match assembleExport c msgs with
  | None => None
  | Some export =>
      let '(ew', err) := ewWrite ew (renderExport export) in
      match err with
      | Some e => Some (ew', Some e)
      | None => Some (ew', ewErr ew')
      end
  end.

(** What [jsonWriteMessages] returns once the writer has been handed the
    document [doc]. *)
Definition afterWrite (ew : Writer) (doc : string) : Writer * option error :=
  let '(ew', err) := ewWrite ew doc in
  match err with
  | Some e => (ew', Some e)
  | None => (ew', ewErr ew')
  end.

(** ** Properties of the quote resolver *)

(** One unfolding of the resolver on a quote that is present, below the
    maximum depth. *)
Lemma parseQuoteJSONWithDepthFuel_step (fuel : nat) (c : Context) (j : quoteJSON) (depth : Z) :
  depth < maxDepth ->
  parseQuoteJSONWithDepthFuel (S fuel) c (Some j) depth =
  match quoteTimeSent j with
  | Err e => Some (Err e)
  | Ok timeSent =>
      match quoteAuthor c j with
      | Err e => Some (Err e)
      | Ok rpt =>
          match parseMentionJSON c (jqMentions j) with
          | Err e => Some (Err e)
          | Ok mentions =>
              if timeSent >? 0 then
                match findQuoteOfMessageFuel fuel c timeSent (depth + 1) with
                | None => None
                | Some r =>
                    Some (Ok (Some (mkQuote rpt timeSent
                                      (mkMessageBody (jqText j) mentions)
                                      (quoteAttachments (jqAttachments j))
                                      match r with
                                      | Ok q => q
                                      | Err _ => None
                                      end)))
                end
              else Some (Ok (Some (mkQuote rpt timeSent
                                     (mkMessageBody (jqText j) mentions)
                                     (quoteAttachments (jqAttachments j)) None)))
          end
      end
  end.
Proof.
  intros Hd. simpl.
  destruct (depth >=? maxDepth) eqn:E.
  - apply Z.geb_le in E. lia.
  - reflexivity.
Qed.

(** At or beyond the maximum depth the resolver returns an absent quote. *)
Lemma parseQuoteJSONWithDepthFuel_maxDepth (fuel : nat) (c : Context)
    (jqte : option quoteJSON) (depth : Z) :
  maxDepth <= depth ->
  parseQuoteJSONWithDepthFuel (S fuel) c jqte depth = Some (Ok None).
Proof.
  intros Hd. simpl. destruct jqte as [j|]; [|reflexivity].
  destruct (depth >=? maxDepth) eqn:E; [reflexivity|].
  rewrite Z.geb_leb in E. apply Z.leb_gt in E. lia.
Qed.

(** More fuel does not change a result. *)
Lemma parseQuoteJSONWithDepthFuel_mono (fuel : nat) :
  forall (c : Context) (jqte : option quoteJSON) (depth : Z) (r : result (option Quote)),
    parseQuoteJSONWithDepthFuel fuel c jqte depth = Some r ->
    forall fuel', (fuel <= fuel')%nat ->
      parseQuoteJSONWithDepthFuel fuel' c jqte depth = Some r.
Proof.
  induction fuel as [|fuel IH]; intros c jqte depth r H fuel' Hle.
  - discriminate H.
  - destruct fuel' as [|fuel']; [lia|].
    assert (Hle' : (fuel <= fuel')%nat) by lia.
    simpl in H |- *.
    destruct jqte as [j|]; [|exact H].
    destruct (depth >=? maxDepth); [exact H|].
    destruct (quoteTimeSent j) as [timeSent|e]; [|exact H].
    destruct (quoteAuthor c j) as [rpt|e]; [|exact H].
    destruct (parseMentionJSON c (jqMentions j)) as [mentions|e]; [|exact H].
    destruct (timeSent >? 0); [|exact H].
    unfold findQuoteOfMessageWith in H |- *.
    destruct (dbPrepareErr (db c)); [exact H|].
    destruct (dbBindErr (db c) timeSent); [exact H|].
    destruct (stepRow (dbMessages (db c)) timeSent) as [jsonStr|]; [|exact H].
    destruct (String.eqb jsonStr ""); [exact H|].
    destruct (unmarshalMessageQuote jsonStr) as [[q|]|]; try exact H.
    destruct (parseQuoteJSONWithDepthFuel fuel c (Some q) (depth + 1)) as [r'|] eqn:E;
      [|discriminate H].
    rewrite (IH _ _ _ _ E _ Hle'). exact H.
Qed.

(** The resolver is a function: a call has at most one result. *)
Lemma resolves_deterministic (c : Context) (jqte : option quoteJSON) (depth : Z)
    (r1 r2 : result (option Quote)) :
  resolves c jqte depth r1 -> resolves c jqte depth r2 -> r1 = r2.
Proof.
  intros [f1 H1] [f2 H2].
  apply parseQuoteJSONWithDepthFuel_mono with (fuel' := Nat.max f1 f2) in H1;
    [|apply Nat.le_max_l].
  apply parseQuoteJSONWithDepthFuel_mono with (fuel' := Nat.max f1 f2) in H2;
    [|apply Nat.le_max_r].
  congruence.
Qed.

(** Termination: with [fuelFor depth] units the resolver returns. *)
Lemma parseQuoteJSONWithDepthFuel_terminates (fuel : nat) :
  forall (c : Context) (jqte : option quoteJSON) (depth : Z),
    (fuelFor depth <= fuel)%nat ->
    exists r, parseQuoteJSONWithDepthFuel fuel c jqte depth = Some r.
Proof.
  unfold fuelFor.
  induction fuel as [|fuel IH]; intros c jqte depth Hf; [lia|].
  destruct jqte as [j|]; [|eexists; reflexivity].
  destruct (Z_lt_le_dec depth maxDepth) as [Hd|Hd].
  - rewrite parseQuoteJSONWithDepthFuel_step by exact Hd.
    destruct (quoteTimeSent j) as [timeSent|e]; [|eexists; reflexivity].
    destruct (quoteAuthor c j) as [rpt|e]; [|eexists; reflexivity].
    destruct (parseMentionJSON c (jqMentions j)) as [mentions|e]; [|eexists; reflexivity].
    destruct (timeSent >? 0); [|eexists; reflexivity].
    unfold findQuoteOfMessageFuel, findQuoteOfMessageWith.
    destruct (dbPrepareErr (db c)); [eexists; reflexivity|].
    destruct (dbBindErr (db c) timeSent); [eexists; reflexivity|].
    destruct (stepRow (dbMessages (db c)) timeSent) as [jsonStr|]; [|eexists; reflexivity].
    destruct (String.eqb jsonStr ""); [eexists; reflexivity|].
    destruct (unmarshalMessageQuote jsonStr) as [[q|]|]; try (eexists; reflexivity).
    destruct (IH c (Some q) (depth + 1)) as [r Hr].
    + unfold maxDepth in *. lia.
    + rewrite Hr. eexists; reflexivity.
  - rewrite parseQuoteJSONWithDepthFuel_maxDepth by exact Hd. eexists; reflexivity.
Qed.

Lemma chainLength_unfold (rpt : option Recipient) (timeSent : Z) (body : MessageBody)
    (atts : list QuoteAttachment) (quoted : option Quote) :
  chainLength (mkQuote rpt timeSent body atts quoted) = S (chainLengthOpt quoted).
Proof. destruct quoted; reflexivity. Qed.

(** A resolved quote at [depth] heads a chain of at most [maxDepth - depth]
    quotes. *)
Lemma parseQuoteJSONWithDepthFuel_chain (fuel : nat) :
  forall (c : Context) (jqte : option quoteJSON) (depth : Z) (q : Quote),
    parseQuoteJSONWithDepthFuel fuel c jqte depth = Some (Ok (Some q)) ->
    Z.of_nat (chainLength q) <= maxDepth - depth.
Proof.
  induction fuel as [|fuel IH]; intros c jqte depth q H; [discriminate H|].
  destruct jqte as [j|]; [|discriminate H].
  destruct (Z_lt_le_dec depth maxDepth) as [Hd|Hd].
  - rewrite parseQuoteJSONWithDepthFuel_step in H by exact Hd.
    destruct (quoteTimeSent j) as [timeSent|e]; [|discriminate H].
    destruct (quoteAuthor c j) as [rpt|e]; [|discriminate H].
    destruct (parseMentionJSON c (jqMentions j)) as [mentions|e]; [|discriminate H].
    destruct (timeSent >? 0).
    + destruct (findQuoteOfMessageFuel fuel c timeSent (depth + 1)) as [r|] eqn:E;
        [|discriminate H].
      injection H as <-. rewrite chainLength_unfold.
      destruct r as [[q'|]|e]; cbn [chainLengthOpt]; try lia.
      assert (Hq : Z.of_nat (chainLength q') <= maxDepth - (depth + 1)).
      { unfold findQuoteOfMessageFuel, findQuoteOfMessageWith in E.
        destruct (dbPrepareErr (db c)); [discriminate E|].
        destruct (dbBindErr (db c) timeSent); [discriminate E|].
        destruct (stepRow (dbMessages (db c)) timeSent) as [jsonStr|]; [|discriminate E].
        destruct (String.eqb jsonStr ""); [discriminate E|].
        destruct (unmarshalMessageQuote jsonStr) as [[jq|]|]; try discriminate E.
        exact (IH _ _ _ _ E). }
      lia.
    + injection H as <-. rewrite chainLength_unfold. cbn [chainLengthOpt]. lia.
  - rewrite parseQuoteJSONWithDepthFuel_maxDepth in H by exact Hd. discriminate H.
Qed.

(** What [findQuoteOfMessage] returns, case by case of the lookup. *)
Lemma findQuoteOfMessageFuel_cases (fuel : nat) (c : Context) (sentAt depth : Z) :
  findQuoteOfMessageFuel fuel c sentAt depth =
  match dbPrepareErr (db c) with
  | Some e => Some (Err e)
  | None =>
      match dbBindErr (db c) sentAt with
      | Some e => Some (Err e)
      | None =>
          match stepRow (dbMessages (db c)) sentAt with
          | None => Some (Ok None)
          | Some jsonStr =>
              if String.eqb jsonStr "" then Some (Ok None)
              else
                match unmarshalMessageQuote jsonStr with
                | None => Some (Ok None)
                | Some None => Some (Ok None)
                | Some (Some q) => parseQuoteJSONWithDepthFuel fuel c (Some q) depth
                end
          end
      end
  end.
Proof. reflexivity. Qed.

Lemma findQuoteOfMessageFuel_terminates (fuel : nat) (c : Context) (sentAt depth : Z) :
  (fuelFor depth <= fuel)%nat ->
  exists r, findQuoteOfMessageFuel fuel c sentAt depth = Some r.
Proof.
  intros Hf. rewrite findQuoteOfMessageFuel_cases.
  destruct (dbPrepareErr (db c)); [eexists; reflexivity|].
  destruct (dbBindErr (db c) sentAt); [eexists; reflexivity|].
  destruct (stepRow (dbMessages (db c)) sentAt) as [jsonStr|]; [|eexists; reflexivity].
  destruct (String.eqb jsonStr ""); [eexists; reflexivity|].
  destruct (unmarshalMessageQuote jsonStr) as [[q|]|]; try (eexists; reflexivity).
  apply parseQuoteJSONWithDepthFuel_terminates. exact Hf.
Qed.

Lemma findQuoteOfMessageFuel_mono (fuel fuel' : nat) (c : Context) (sentAt depth : Z)
    (r : result (option Quote)) :
  findQuoteOfMessageFuel fuel c sentAt depth = Some r ->
  (fuel <= fuel')%nat ->
  findQuoteOfMessageFuel fuel' c sentAt depth = Some r.
Proof.
  rewrite !findQuoteOfMessageFuel_cases. intros H Hle.
  destruct (dbPrepareErr (db c)); [exact H|].
  destruct (dbBindErr (db c) sentAt); [exact H|].
  destruct (stepRow (dbMessages (db c)) sentAt) as [jsonStr|]; [|exact H].
  destruct (String.eqb jsonStr ""); [exact H|].
  destruct (unmarshalMessageQuote jsonStr) as [[q|]|]; try exact H.
  eapply parseQuoteJSONWithDepthFuel_mono; eassumption.
Qed.

Lemma fuelFor_succ (depth : Z) :
  depth < maxDepth -> fuelFor depth = S (fuelFor (depth + 1)).
Proof. unfold fuelFor, maxDepth. intros H. f_equal. lia. Qed.

(** A quote below the maximum depth whose ID, author and mentions are all
    accepted resolves, and its fields are those of the raw quote. *)
Lemma resolve_success (c : Context) (j : quoteJSON) (depth timeSent : Z)
    (rpt : option Recipient) (mentions : list Mention) :
  depth < maxDepth ->
  quoteTimeSent j = Ok timeSent ->
  quoteAuthor c j = Ok rpt ->
  parseMentionJSON c (jqMentions j) = Ok mentions ->
  exists link,
    (forall fuel, (fuelFor depth <= fuel)%nat ->
       parseQuoteJSONWithDepthFuel fuel c (Some j) depth =
       Some (Ok (Some (mkQuote rpt timeSent (mkMessageBody (jqText j) mentions)
                         (quoteAttachments (jqAttachments j)) link))))
    /\ (timeSent <= 0 -> link = None)
    /\ (0 < timeSent ->
        exists r, link = chainLink r /\
          forall fuel, (fuelFor (depth + 1) <= fuel)%nat ->
            findQuoteOfMessageFuel fuel c timeSent (depth + 1) = Some r).
Proof.
  intros Hd Hts Hau Hme.
  destruct (Z_lt_le_dec 0 timeSent) as [Hpos|Hneg].
  - destruct (findQuoteOfMessageFuel_terminates c timeSent (depth := depth + 1)
                (Nat.le_refl _)) as [r Hr].
    exists (chainLink r). split; [|split].
    + intros fuel Hf. rewrite (fuelFor_succ Hd) in Hf.
      destruct fuel as [|fuel]; [lia|].
      rewrite parseQuoteJSONWithDepthFuel_step by exact Hd.
      rewrite Hts, Hau, Hme.
      replace (timeSent >? 0) with true by (symmetry; apply Z.gtb_lt; lia).
      rewrite (findQuoteOfMessageFuel_mono (fuel' := fuel) _ _ _ Hr) by lia.
      reflexivity.
    + lia.
    + intros _. exists r. split; [reflexivity|].
      intros fuel Hf. eapply findQuoteOfMessageFuel_mono; eassumption.
  - exists None. split; [|split].
    + intros fuel Hf. destruct fuel as [|fuel]; [unfold fuelFor in Hf; lia|].
      rewrite parseQuoteJSONWithDepthFuel_step by exact Hd.
      rewrite Hts, Hau, Hme.
      replace (timeSent >? 0) with false; [reflexivity|].
      symmetry. rewrite Z.gtb_ltb. apply Z.ltb_ge. exact Hneg.
    + reflexivity.
    + lia.
Qed.

(** C1: for every raw quote and every store, cyclic ones included, quote
    resolution terminates: the call at [depth] returns a result [r] with
    [fuelFor depth] units of fuel (11 at the entry depth 0).  A quote that
    it returns heads a chain of at most [maxDepth - depth] quotes, so never
    more than 10 from a depth that is not negative, and a call with the
    depth counter at the maximum 10 or beyond returns absent for that link
    without recursing. *)
Theorem quote_resolution_terminates_within_maxDepth
    (c : Context) (jqte : option quoteJSON) (depth : Z) :
  exists r : result (option Quote),
    (forall fuel, (fuelFor depth <= fuel)%nat ->
       parseQuoteJSONWithDepthFuel fuel c jqte depth = Some r)
    /\ (forall q, r = Ok (Some q) ->
          Z.of_nat (chainLength q) <= maxDepth - depth
          /\ (0 <= depth -> (chainLength q <= 10)%nat))
    /\ (maxDepth <= depth ->
          r = Ok None
          /\ forall fuel, parseQuoteJSONWithDepthFuel (S fuel) c jqte depth = Some (Ok None)).
Proof.
  destruct (parseQuoteJSONWithDepthFuel_terminates c jqte (depth := depth) (Nat.le_refl _))
    as [r Hr].
  exists r. split; [|split].
  - intros fuel Hf. eapply parseQuoteJSONWithDepthFuel_mono; eassumption.
  - intros q ->. pose proof (parseQuoteJSONWithDepthFuel_chain _ _ _ _ Hr) as Hc.
    split; [exact Hc|]. unfold maxDepth in Hc. lia.
  - intros Hd. split.
    + unfold fuelFor in Hr.
      rewrite parseQuoteJSONWithDepthFuel_maxDepth in Hr by exact Hd. congruence.
    + intros fuel. apply parseQuoteJSONWithDepthFuel_maxDepth. exact Hd.
Qed.

(** A resolved quote carries the timestamp, the author, the text and the
    attachments that the raw quote determines. *)
Lemma resolve_inv (fuel : nat) (c : Context) (j : quoteJSON) (depth : Z) (q : Quote) :
  parseQuoteJSONWithDepthFuel fuel c (Some j) depth = Some (Ok (Some q)) ->
  depth < maxDepth
  /\ quoteTimeSent j = Ok (qTimeSent q)
  /\ quoteAuthor c j = Ok (qRecipient q)
  /\ Text (qBody q) = jqText j
  /\ parseMentionJSON c (jqMentions j) = Ok (Mentions (qBody q))
  /\ qAttachments q = quoteAttachments (jqAttachments j)
  /\ (qTimeSent q <= 0 -> QuotedQuote q = None).
Proof.
  intros H. destruct fuel as [|fuel]; [discriminate H|].
  destruct (Z_lt_le_dec depth maxDepth) as [Hd|Hd].
  - split; [exact Hd|].
    rewrite parseQuoteJSONWithDepthFuel_step in H by exact Hd.
    destruct (quoteTimeSent j) as [timeSent|e]; [|discriminate H].
    destruct (quoteAuthor c j) as [rpt|e]; [|discriminate H].
    destruct (parseMentionJSON c (jqMentions j)) as [mentions|e]; [|discriminate H].
    destruct (timeSent >? 0) eqn:Epos.
    + destruct (findQuoteOfMessageFuel fuel c timeSent (depth + 1)); [|discriminate H].
      injection H as <-. cbn. repeat split; try reflexivity.
      apply Z.gtb_lt in Epos. lia.
    + injection H as <-. cbn. repeat split; reflexivity.
  - rewrite parseQuoteJSONWithDepthFuel_maxDepth in H by exact Hd. discriminate H.
Qed.

Lemma quoteAuthor_without_author (c : Context) (j : quoteJSON) :
  jqAuthorACI j = "" -> jqAuthorUUID j = "" -> jqAuthor j = "" ->
  quoteAuthor c j = Err ErrQuoteWithoutAuthor.
Proof. intros H1 H2 H3. unfold quoteAuthor. rewrite H1, H2, H3. reflexivity. Qed.

(** C2, amended: a raw quote whose three author fields are empty, resolved
    below the maximum depth, fails.  It fails with the condition
    [quote without author] whenever its ID is absent or parses as a 64-bit
    integer, whatever its other fields hold; a quote whose ID does not parse
    fails with the ID parse error, which the resolver reports before it looks
    at the author. *)
Theorem quote_without_author_fails (c : Context) (j : quoteJSON) (depth : Z) :
  depth < maxDepth ->
  jqAuthorACI j = "" -> jqAuthorUUID j = "" -> jqAuthor j = "" ->
  (jqID j = None ->
     forall fuel, parseQuoteJSONWithDepthFuel (S fuel) c (Some j) depth
                  = Some (Err ErrQuoteWithoutAuthor))
  /\ (forall num v, jqID j = Some num -> json.Int64 num = inr v ->
        forall fuel, parseQuoteJSONWithDepthFuel (S fuel) c (Some j) depth
                     = Some (Err ErrQuoteWithoutAuthor))
  /\ (forall num e, jqID j = Some num -> json.Int64 num = inl e ->
        forall fuel, parseQuoteJSONWithDepthFuel (S fuel) c (Some j) depth
                     = Some (Err (ErrParseQuoteID e))).
Proof.
  intros Hd H1 H2 H3.
  pose proof (quoteAuthor_without_author c j H1 H2 H3) as Hau.
  split; [|split].
  - intros Hid fuel. rewrite parseQuoteJSONWithDepthFuel_step by exact Hd.
    unfold quoteTimeSent. rewrite Hid, Hau. reflexivity.
  - intros num v Hid Hv fuel. rewrite parseQuoteJSONWithDepthFuel_step by exact Hd.
    unfold quoteTimeSent. rewrite Hid, Hv, Hau. reflexivity.
  - intros num e Hid He fuel. rewrite parseQuoteJSONWithDepthFuel_step by exact Hd.
    unfold quoteTimeSent. rewrite Hid, He. reflexivity.
Qed.

(** C3: a quote whose resolved timestamp is positive (and whose author and
    mentions are accepted, below the maximum depth) resolves successfully
    whatever the chain step does.  Its nested link is the outcome [r] of
    [findQuoteOfMessage] at that timestamp and [depth + 1], with an error
    turned into absent; [r] is the store lookup at that exact timestamp
    followed, when the row holds a quote payload, by the resolution of that
    payload at [depth + 1].  A failure to prepare or bind, a lookup miss, an
    empty or undecodable payload, a payload without a quote and a failed
    nested resolution all leave the link absent. *)
Theorem chain_step_is_non_fatal (c : Context) (j : quoteJSON) (depth timeSent : Z)
    (rpt : option Recipient) (mentions : list Mention) :
  depth < maxDepth ->
  quoteTimeSent j = Ok timeSent ->
  0 < timeSent ->
  quoteAuthor c j = Ok rpt ->
  parseMentionJSON c (jqMentions j) = Ok mentions ->
  exists r : result (option Quote),
    (forall fuel, (fuelFor depth <= fuel)%nat ->
       parseQuoteJSONWithDepthFuel fuel c (Some j) depth =
       Some (Ok (Some (mkQuote rpt timeSent (mkMessageBody (jqText j) mentions)
                         (quoteAttachments (jqAttachments j)) (chainLink r)))))
    /\ (forall fuel, (fuelFor (depth + 1) <= fuel)%nat ->
          findQuoteOfMessageFuel fuel c timeSent (depth + 1) = Some r)
    /\ match dbPrepareErr (db c), dbBindErr (db c) timeSent with
       | Some e, _ => r = Err e
       | None, Some e => r = Err e
       | None, None =>
           match stepRow (dbMessages (db c)) timeSent with
           | None => r = Ok None
           | Some jsonStr =>
               if String.eqb jsonStr "" then r = Ok None
               else
                 match unmarshalMessageQuote jsonStr with
                 | None => r = Ok None
                 | Some None => r = Ok None
                 | Some (Some q) => resolves c (Some q) (depth + 1) r
                 end
           end
       end
    /\ (forall e, r = Err e -> chainLink r = None)
    /\ (stepRow (dbMessages (db c)) timeSent = None -> chainLink r = None)
    /\ (forall jsonStr, stepRow (dbMessages (db c)) timeSent = Some jsonStr ->
          unmarshalMessageQuote jsonStr = None -> chainLink r = None).
Proof.
  intros Hd Hts Hpos Hau Hme.
  destruct (resolve_success c j Hd Hts Hau Hme) as (link & Hres & _ & Hlink).
  destruct (Hlink Hpos) as (r & -> & Hfind).
  exists r.
  assert (Hcases : match dbPrepareErr (db c), dbBindErr (db c) timeSent with
       | Some e, _ => r = Err e
       | None, Some e => r = Err e
       | None, None =>
           match stepRow (dbMessages (db c)) timeSent with
           | None => r = Ok None
           | Some jsonStr =>
               if String.eqb jsonStr "" then r = Ok None
               else
                 match unmarshalMessageQuote jsonStr with
                 | None => r = Ok None
                 | Some None => r = Ok None
                 | Some (Some q) => resolves c (Some q) (depth + 1) r
                 end
           end
       end).
  { specialize (Hfind _ (Nat.le_refl _)).
    rewrite findQuoteOfMessageFuel_cases in Hfind.
    destruct (dbPrepareErr (db c)); [congruence|].
    destruct (dbBindErr (db c) timeSent); [congruence|].
    destruct (stepRow (dbMessages (db c)) timeSent) as [jsonStr|]; [|congruence].
    destruct (String.eqb jsonStr ""); [congruence|].
    destruct (unmarshalMessageQuote jsonStr) as [[q|]|]; try congruence.
    eexists; exact Hfind. }
  repeat split.
  - exact Hres.
  - exact Hfind.
  - exact Hcases.
  - intros e ->. reflexivity.
  - intros Hmiss. rewrite Hmiss in Hcases.
    destruct (dbPrepareErr (db c)); [subst r; reflexivity|].
    destruct (dbBindErr (db c) timeSent); subst r; reflexivity.
  - intros jsonStr Hrow Hun. rewrite Hrow, Hun in Hcases.
    destruct (dbPrepareErr (db c)); [subst r; reflexivity|].
    destruct (dbBindErr (db c) timeSent); [subst r; reflexivity|].
    destruct (String.eqb jsonStr ""); subst r; reflexivity.
Qed.

(** *** [Int64] reads back the decimal text of a 64-bit integer *)

Lemma of_uint_acc_le (d : Decimal.uint) :
  forall acc : positive, (acc <= Pos.of_uint_acc d acc)%positive.
Proof.
  induction d; intros acc; cbn [Pos.of_uint_acc];
    try apply Pos.le_refl;
    (eapply Pos.le_trans; [|apply IHd]); lia.
Qed.

Lemma parseDigits_of_uint_acc (d : Decimal.uint) :
  forall acc : positive,
    Z.pos (Pos.of_uint_acc d acc) <= strconv.maxUint64 ->
    strconv.parseDigits (Z.pos acc) (NilEmpty.string_of_uint d)
    = inr (Z.pos (Pos.of_uint_acc d acc)).
Proof.
  induction d; intros acc Hmax; cbn [Pos.of_uint_acc NilEmpty.string_of_uint] in *;
    [reflexivity|..];
    cbn [strconv.parseDigits];
    match goal with
    | |- context [strconv.digit ?c] =>
        let v := eval vm_compute in (strconv.digit c) in
        change (strconv.digit c) with v; cbv iota beta
    end;
    match goal with
    | H : Z.pos (Pos.of_uint_acc d ?a) <= _ |- _ =>
        pose proof (of_uint_acc_le d a) as Hle;
        replace (Z.pos acc * 10 + _) with (Z.pos a) by lia;
        replace (Z.pos a >? strconv.maxUint64) with false
          by (symmetry; rewrite Z.gtb_ltb; apply Z.ltb_ge; lia);
        apply IHd; exact H
    end.
Qed.

Lemma parseDigits_of_uint (d : Decimal.uint) :
  Z.of_N (Pos.of_uint d) <= strconv.maxUint64 ->
  strconv.parseDigits 0 (NilEmpty.string_of_uint d) = inr (Z.of_N (Pos.of_uint d)).
Proof.
  induction d; intros Hmax; cbn [Pos.of_uint NilEmpty.string_of_uint] in *;
    [reflexivity|exact (IHd Hmax)|..];
    cbn [strconv.parseDigits];
    match goal with
    | |- context [strconv.digit ?c] =>
        let v := eval vm_compute in (strconv.digit c) in
        change (strconv.digit c) with v; cbv iota beta
    end;
    cbn [Z.of_N] in *;
    match goal with
    | |- context [0 * 10 + ?k] =>
        change (0 * 10 + k) with k;
        change (k >? strconv.maxUint64) with false; cbv iota
    end;
    apply parseDigits_of_uint_acc; exact Hmax.
Qed.

(** The decimal text of a positive number starts with a digit. *)
Lemma string_of_uint_head (d : Decimal.uint) :
  d <> Decimal.Nil ->
  exists c rest,
    NilEmpty.string_of_uint d = String c rest
    /\ Ascii.eqb c "+" = false /\ Ascii.eqb c "-" = false.
Proof.
  intros Hne. destruct d; [congruence|..]; cbn [NilEmpty.string_of_uint];
    eexists; eexists; repeat split.
Qed.

Lemma ParseUint_to_uint (p : positive) :
  Z.pos p <= strconv.maxUint64 ->
  strconv.ParseUint (NilEmpty.string_of_uint (Pos.to_uint p)) = inr (Z.pos p).
Proof.
  intros Hmax.
  destruct (string_of_uint_head (DecimalPos.Unsigned.to_uint_nonnil p))
    as (c & rest & E & _).
  unfold strconv.ParseUint. rewrite E, <- E.
  rewrite parseDigits_of_uint; rewrite DecimalPos.Unsigned.of_to; [reflexivity|exact Hmax].
Qed.

Lemma appendInt_pos (p : positive) :
  encoding.appendInt (Z.pos p) = NilEmpty.string_of_uint (Pos.to_uint p).
Proof.
  unfold encoding.appendInt, NilZero.string_of_int, NilZero.string_of_uint.
  cbn [Z.to_int].
  pose proof (DecimalPos.Unsigned.to_uint_nonnil p) as Hne.
  destruct (Pos.to_uint p); [congruence|..]; reflexivity.
Qed.

Lemma appendInt_neg (p : positive) :
  encoding.appendInt (Z.neg p) = String "-" (NilEmpty.string_of_uint (Pos.to_uint p)).
Proof.
  unfold encoding.appendInt, NilZero.string_of_int, NilZero.string_of_uint.
  cbn [Z.to_int].
  pose proof (DecimalPos.Unsigned.to_uint_nonnil p) as Hne.
  destruct (Pos.to_uint p); [congruence|..]; reflexivity.
Qed.

(** [Int64] applied to the decimal text of a 64-bit integer returns that
    integer: an ID written as a number is read back exactly. *)
Lemma Int64_appendInt (v : Z) :
  - 2 ^ 63 <= v < 2 ^ 63 -> json.Int64 (encoding.appendInt v) = inr v.
Proof.
  intros Hv. unfold json.Int64. destruct v as [|p|p].
  - reflexivity.
  - rewrite appendInt_pos.
    destruct (string_of_uint_head (DecimalPos.Unsigned.to_uint_nonnil p))
      as (c & rest & E & Hplus & Hminus).
    unfold strconv.ParseInt. rewrite E, Hplus, Hminus, <- E.
    rewrite ParseUint_to_uint by (unfold strconv.maxUint64; lia).
    unfold strconv.cutoffInt64. cbn [negb andb].
    destruct (Z.leb_spec (2 ^ 63) (Z.pos p)); [lia|reflexivity].
  - rewrite appendInt_neg. unfold strconv.ParseInt.
    change (Ascii.eqb "-" "+") with false. change (Ascii.eqb "-" "-") with true.
    cbv iota. rewrite ParseUint_to_uint by (unfold strconv.maxUint64; lia).
    unfold strconv.cutoffInt64. cbn [negb andb].
    destruct (Z.ltb_spec (2 ^ 63) (Z.pos p)); [lia|reflexivity].
Qed.

(** C4: the referenced-timestamp field of a raw quote resolved below the
    maximum depth.  A missing (null) ID is not an error: the quote resolves,
    provided its author and mentions are accepted, with the sentinel -1 as
    its send timestamp and without a chain step.  An ID whose text parses as
    a 64-bit integer (the text is the same whether the payload held a number
    or a numeric string) becomes the send timestamp of the resolved quote; in
    particular the decimal text of any 64-bit integer [n] yields the send
    timestamp [n].  An ID that does not parse makes the resolution fail with
    the ID parse error. *)
Theorem quote_id_sentinel_number_or_error (c : Context) (j : quoteJSON) (depth : Z) :
  depth < maxDepth ->
  (jqID j = None ->
     (forall rpt mentions,
        quoteAuthor c j = Ok rpt ->
        parseMentionJSON c (jqMentions j) = Ok mentions ->
        forall fuel,
          parseQuoteJSONWithDepthFuel (S fuel) c (Some j) depth =
          Some (Ok (Some (mkQuote rpt (-1) (mkMessageBody (jqText j) mentions)
                            (quoteAttachments (jqAttachments j)) None))))
     /\ (forall fuel q,
           parseQuoteJSONWithDepthFuel fuel c (Some j) depth = Some (Ok (Some q)) ->
           qTimeSent q = -1))
  /\ (forall num v, jqID j = Some num -> json.Int64 num = inr v ->
        (forall rpt mentions,
           quoteAuthor c j = Ok rpt ->
           parseMentionJSON c (jqMentions j) = Ok mentions ->
           exists link, forall fuel, (fuelFor depth <= fuel)%nat ->
             parseQuoteJSONWithDepthFuel fuel c (Some j) depth =
             Some (Ok (Some (mkQuote rpt v (mkMessageBody (jqText j) mentions)
                               (quoteAttachments (jqAttachments j)) link))))
        /\ (forall fuel q,
              parseQuoteJSONWithDepthFuel fuel c (Some j) depth = Some (Ok (Some q)) ->
              qTimeSent q = v))
  /\ (forall n, - 2 ^ 63 <= n < 2 ^ 63 -> jqID j = Some (encoding.appendInt n) ->
        forall fuel q,
          parseQuoteJSONWithDepthFuel fuel c (Some j) depth = Some (Ok (Some q)) ->
          qTimeSent q = n)
  /\ (forall num e, jqID j = Some num -> json.Int64 num = inl e ->
        forall fuel,
          parseQuoteJSONWithDepthFuel (S fuel) c (Some j) depth
          = Some (Err (ErrParseQuoteID e))).
Proof.
  intros Hd. split; [|split; [|split]].
  - intros Hid.
    assert (Hts : quoteTimeSent j = Ok (-1))
      by (unfold quoteTimeSent; rewrite Hid; reflexivity).
    split.
    + intros rpt mentions Hau Hme fuel.
      rewrite parseQuoteJSONWithDepthFuel_step by exact Hd.
      rewrite Hts, Hau, Hme. reflexivity.
    + intros fuel q H. apply resolve_inv in H. destruct H as (_ & H & _).
      congruence.
  - intros num v Hid Hv.
    assert (Hts : quoteTimeSent j = Ok v)
      by (unfold quoteTimeSent; rewrite Hid, Hv; reflexivity).
    split.
    + intros rpt mentions Hau Hme.
      destruct (resolve_success c j Hd Hts Hau Hme) as (link & Hres & _).
      exists link. exact Hres.
    + intros fuel q H. apply resolve_inv in H. destruct H as (_ & H & _).
      congruence.
  - intros n Hn Hid fuel q H. apply resolve_inv in H. destruct H as (_ & H & _).
    unfold quoteTimeSent in H. rewrite Hid, (Int64_appendInt Hn) in H. congruence.
  - intros num e Hid He fuel.
    rewrite parseQuoteJSONWithDepthFuel_step by exact Hd.
    unfold quoteTimeSent. rewrite Hid, He. reflexivity.
Qed.

Lemma quoteAuthor_present (c : Context) (j : quoteJSON) (rpt : option Recipient) :
  lookupsResolve c -> quoteAuthor c j = Ok rpt -> rpt <> None.
Proof.
  intros [Haci Hphone] H Hnone. subst rpt. unfold quoteAuthor in H.
  destruct (negb (jqAuthorACI j =? "")%string); [exact (Haci _ H)|].
  destruct (negb (jqAuthorUUID j =? "")%string); [exact (Haci _ H)|].
  destruct (negb (jqAuthor j =? "")%string); [exact (Hphone _ H)|].
  discriminate H.
Qed.

Lemma chainAuthors_unfold (rpt : option Recipient) (timeSent : Z) (body : MessageBody)
    (atts : list QuoteAttachment) (quoted : option Quote) :
  chainAuthors (mkQuote rpt timeSent body atts quoted) =
  rpt :: match quoted with
         | None => []
         | Some q' => chainAuthors q'
         end.
Proof. destruct quoted; reflexivity. Qed.

(** Under [lookupsResolve], every quote on a resolved chain has an author. *)
Lemma parseQuoteJSONWithDepthFuel_authors (fuel : nat) :
  forall (c : Context) (jqte : option quoteJSON) (depth : Z) (q : Quote),
    lookupsResolve c ->
    parseQuoteJSONWithDepthFuel fuel c jqte depth = Some (Ok (Some q)) ->
    Forall (fun a => a <> None) (chainAuthors q).
Proof.
  induction fuel as [|fuel IH]; intros c jqte depth q Hl H; [discriminate H|].
  destruct jqte as [j|]; [|discriminate H].
  destruct (Z_lt_le_dec depth maxDepth) as [Hd|Hd].
  - rewrite parseQuoteJSONWithDepthFuel_step in H by exact Hd.
    destruct (quoteTimeSent j) as [timeSent|e]; [|discriminate H].
    destruct (quoteAuthor c j) as [rpt|e] eqn:Hau; [|discriminate H].
    pose proof (quoteAuthor_present j Hl Hau) as Hrpt.
    destruct (parseMentionJSON c (jqMentions j)) as [mentions|e]; [|discriminate H].
    destruct (timeSent >? 0).
    + rewrite findQuoteOfMessageFuel_cases in H.
      destruct (dbPrepareErr (db c));
        [injection H as <-; rewrite chainAuthors_unfold; constructor; auto|].
      destruct (dbBindErr (db c) timeSent);
        [injection H as <-; rewrite chainAuthors_unfold; constructor; auto|].
      destruct (stepRow (dbMessages (db c)) timeSent) as [jsonStr|];
        [|injection H as <-; rewrite chainAuthors_unfold; constructor; auto].
      destruct (String.eqb jsonStr "");
        [injection H as <-; rewrite chainAuthors_unfold; constructor; auto|].
      destruct (unmarshalMessageQuote jsonStr) as [[jq|]|];
        try (injection H as <-; rewrite chainAuthors_unfold; constructor; auto).
      destruct (parseQuoteJSONWithDepthFuel fuel c (Some jq) (depth + 1)) as [r|] eqn:E;
        [|discriminate H].
      injection H as <-. rewrite chainAuthors_unfold. constructor; [exact Hrpt|].
      destruct r as [[q'|]|e]; cbn [chainLink]; try constructor.
      exact (IH _ _ _ _ Hl E).
    + injection H as <-. rewrite chainAuthors_unfold. constructor; auto.
  - rewrite parseQuoteJSONWithDepthFuel_maxDepth in H by exact Hd. discriminate H.
Qed.

(** [convertQuote] reads the display name of the author of every quote on
    the chain. *)
Lemma chainFroms_convertQuoteOf :
  forall q : Quote, chainFroms (convertQuoteOf q) = map DetailedDisplayName (chainAuthors q).
Proof.
  fix IH 1. intros [rpt timeSent body atts [q'|]].
  - cbn. f_equal. apply IH.
  - reflexivity.
Qed.

Lemma Forall_present_map_Some (l : list (option Recipient)) :
  Forall (fun a => a <> None) l -> exists rpts : list Recipient, l = map Some rpts.
Proof.
  induction 1 as [|a l Ha _ [rpts ->]].
  - exists []. reflexivity.
  - destruct a as [r|]; [|congruence]. exists (r :: rpts). reflexivity.
Qed.

(** C7: under [lookupsResolve], a quote that resolution returns carries an
    author that is present, and so does every quote nested in its chain; the
    export conversion, which reads the display name of the author of the
    quote and of every nested quote, reads it from a recipient each time. *)
Theorem resolved_quote_author_is_present
    (c : Context) (jqte : option quoteJSON) (depth : Z) (q : Quote) :
  lookupsResolve c ->
  resolves c jqte depth (Ok (Some q)) ->
  qRecipient q <> None
  /\ exists rpts : list Recipient,
       chainAuthors q = map Some rpts
       /\ chainFroms (convertQuoteOf q)
          = map (fun r => DetailedDisplayName (Some r)) rpts.
Proof.
  intros Hl [fuel H].
  pose proof (parseQuoteJSONWithDepthFuel_authors _ _ _ Hl H) as Hall.
  split.
  - destruct q as [rpt ts body atts quoted]. rewrite chainAuthors_unfold in Hall.
    inversion Hall; assumption.
  - destruct (Forall_present_map_Some Hall) as [rpts Hrpts].
    exists rpts. split; [exact Hrpts|].
    rewrite chainFroms_convertQuoteOf, Hrpts, map_map. reflexivity.
Qed.

(** The assumption of C7 is needed: the resolver stores what the lookup
    returns, so a lookup that returns neither a recipient nor an error
    leaves the author of the resolved quote absent. *)
Remark resolved_quote_author_follows_lookup
    (c : Context) (j : quoteJSON) (depth : Z) (fuel : nat) (q : Quote) :
  parseQuoteJSONWithDepthFuel fuel c (Some j) depth = Some (Ok (Some q)) ->
  jqAuthorACI j <> "" ->
  recipientFromACI c (jqAuthorACI j) = Ok None ->
  qRecipient q = None.
Proof.
  intros H Hne Hlook. apply resolve_inv in H. destruct H as (_ & _ & Hau & _).
  unfold quoteAuthor in Hau.
  destruct (String.eqb_spec (jqAuthorACI j) ""); [contradiction|].
  cbn in Hau. congruence.
Qed.

(** ** Properties of the exporter *)

Lemma convertEditsFrom_length (n i : Z) (edits : list Edit) :
  List.length (convertEditsFrom n i edits) = List.length edits.
Proof.
  revert i. induction edits as [|edit rest IH]; intros i; simpl.
  - reflexivity.
  - rewrite IH. reflexivity.
Qed.

Lemma convertEditsFrom_nth_error (n : Z) (edits : list Edit) :
  forall (i : Z) (k : nat) (edit : Edit),
    nth_error edits k = Some edit ->
    nth_error (convertEditsFrom n i edits) k =
    Some (mkJsonEdit (n - (i + Z.of_nat k))
                     (formatTime (edTimeEdit edit))
                     (Text (edBody edit))
                     (convertAttachments (edAttachments edit))
                     (convertQuote (edQuote edit))).
Proof.
  induction edits as [|e rest IH]; intros i k edit H.
  - destruct k; discriminate H.
  - destruct k as [|k].
    + injection H as ->. simpl. do 3 f_equal. lia.
    + simpl in H |- *. rewrite (IH (i + 1) k edit H). do 3 f_equal. lia.
Qed.

Lemma convertEditsFrom_versions (n : Z) (edits : list Edit) :
  forall i : Z,
    map jedVersion (convertEditsFrom n i edits) =
    map (fun k => n - (i + Z.of_nat k)) (seq 0 (List.length edits)).
Proof.
  induction edits as [|e rest IH]; intros i.
  - reflexivity.
  - simpl. f_equal; [lia|].
    rewrite IH, <- seq_shift, map_map.
    apply map_ext. intros k. lia.
Qed.

Lemma convertMessage_edits (self : string) (msg : Message) :
  jmsgEdits (convertMessage self msg) = convertEdits (msgEdits msg).
Proof.
  unfold convertMessage.
  destruct (if negb (msgTimeSent msg =? 0) then _ else _) as [sent sentUnix].
  destruct (msgEdits msg) as [|edit rest]; reflexivity.
Qed.

(** C5: a message with N edits is exported with exactly N edit records, and
    the record at position i (from 0, in the order of the edit list) has
    version N - i and the content of the i-th edit: the versions are
    N, N-1, ..., 1 and the last record has version 1. *)
Theorem edits_are_numbered_downwards (self : string) (msg : Message) :
  let N := List.length (msgEdits msg) in
  let records := jmsgEdits (convertMessage self msg) in
  List.length records = N
  /\ (forall (i : nat) (edit : Edit),
        nth_error (msgEdits msg) i = Some edit ->
        nth_error records i =
        Some (mkJsonEdit (Z.of_nat N - Z.of_nat i)
                         (formatTime (edTimeEdit edit))
                         (Text (edBody edit))
                         (convertAttachments (edAttachments edit))
                         (convertQuote (edQuote edit))))
  /\ map jedVersion records = map (fun i => Z.of_nat N - Z.of_nat i) (seq 0 N)
  /\ (forall last, nth_error records (N - 1) = Some last -> jedVersion last = 1).
Proof.
  intros N records. subst records. rewrite convertMessage_edits. unfold convertEdits.
  fold N. split; [|split; [|split]].
  - apply convertEditsFrom_length.
  - intros i edit H.
    rewrite (convertEditsFrom_nth_error _ _ 0 _ H). reflexivity.
  - rewrite convertEditsFrom_versions. apply map_ext. intros k. reflexivity.
  - intros last H.
    destruct (nth_error (msgEdits msg) (N - 1)) as [edit|] eqn:E.
    + rewrite (convertEditsFrom_nth_error _ _ 0 _ E) in H. injection H as <-.
      cbn [jedVersion].
      assert (N - 1 < N)%nat by (apply nth_error_Some; fold N; congruence).
      lia.
    + apply nth_error_None in E.
      assert (nth_error (convertEditsFrom (Z.of_nat N) 0 (msgEdits msg)) (N - 1) = None)
        by (apply nth_error_None; rewrite convertEditsFrom_length; exact E).
      congruence.
Qed.

(** *** Which members an exported record has *)

Lemma lookupField_app (name : string) (l1 l2 : list (string * encoding.value)) :
  lookupField name (l1 ++ l2) =
  match lookupField name l1 with
  | Some v => Some v
  | None => lookupField name l2
  end.
Proof.
  induction l1 as [|[k v] l1 IH]; simpl.
  - reflexivity.
  - destruct (String.eqb k name); [reflexivity|exact IH].
Qed.

Lemma lookupField_fieldString (name key s : string) :
  lookupField name (fieldString key s) =
  if String.eqb key name then Some (encoding.JString s) else None.
Proof. reflexivity. Qed.

Lemma lookupField_fieldInt (name key : string) (n : Z) :
  lookupField name (fieldInt key n) =
  if String.eqb key name then Some (encoding.JInt n) else None.
Proof. reflexivity. Qed.

Lemma lookupField_omitemptyString (name key s : string) :
  lookupField name (omitemptyString key s) =
  if String.eqb key name
  then (if String.eqb s "" then None else Some (encoding.JString s))
  else None.
Proof.
  unfold omitemptyString. destruct (String.eqb s ""); simpl.
  - destruct (String.eqb key name); reflexivity.
  - reflexivity.
Qed.

Lemma lookupField_omitemptyInt (name key : string) (n : Z) :
  lookupField name (omitemptyInt key n) =
  if String.eqb key name
  then (if n =? 0 then None else Some (encoding.JInt n))
  else None.
Proof.
  unfold omitemptyInt. destruct (n =? 0); simpl.
  - destruct (String.eqb key name); reflexivity.
  - reflexivity.
Qed.

Lemma lookupField_omitemptySlice (name key : string) (items : list encoding.value) :
  lookupField name (omitemptySlice key items) =
  if String.eqb key name
  then match items with
       | [] => None
       | _ => Some (encoding.JArray items)
       end
  else None.
Proof. destruct items; simpl; destruct (String.eqb key name); reflexivity. Qed.

Lemma lookupField_omitemptyPtr (name key : string) (v : option encoding.value) :
  lookupField name (omitemptyPtr key v) = if String.eqb key name then v else None.
Proof. destruct v; simpl; destruct (String.eqb key name); reflexivity. Qed.

(** Rewriting a lookup through the members of a record, in their order. *)
Ltac lookup_members :=
  repeat rewrite lookupField_app;
  repeat first
    [ rewrite lookupField_fieldString
    | rewrite lookupField_fieldInt
    | rewrite lookupField_omitemptyString
    | rewrite lookupField_omitemptyInt
    | rewrite lookupField_omitemptySlice
    | rewrite lookupField_omitemptyPtr ];
  cbn [String.eqb Ascii.eqb Bool.eqb].

Lemma member_body (m : jsonMessage) :
  member "body" (marshalMessage m) =
  if String.eqb (jmsgBody m) "" then None else Some (encoding.JString (jmsgBody m)).
Proof.
  unfold member, marshalMessage. lookup_members.
  destruct (String.eqb (jmsgBody m) ""); reflexivity.
Qed.

Lemma member_received (m : jsonMessage) :
  member "received" (marshalMessage m) =
  if String.eqb (jmsgReceived m) "" then None
  else Some (encoding.JString (jmsgReceived m)).
Proof.
  unfold member, marshalMessage. lookup_members.
  destruct (String.eqb (jmsgReceived m) ""); reflexivity.
Qed.

Lemma member_quote (m : jsonMessage) :
  member "quote" (marshalMessage m) = option_map marshalQuote (jmsgQuote m).
Proof.
  unfold member, marshalMessage. lookup_members.
  destruct (option_map marshalQuote (jmsgQuote m)); reflexivity.
Qed.

Lemma member_count (g : jsonGroupV2Change) :
  member "count" (marshalGroupV2Change g) =
  if jgcCount g =? 0 then None else Some (encoding.JInt (jgcCount g)).
Proof.
  unfold member, marshalGroupV2Change. lookup_members.
  destruct (jgcCount g =? 0); reflexivity.
Qed.

(** *** The fields of an exported message *)

Lemma convertMessage_received (self : string) (msg : Message) :
  jmsgReceived (convertMessage self msg) =
  if negb (IsOutgoing msg) && negb (msgTimeRecv msg =? 0)
  then formatTime (msgTimeRecv msg) else "".
Proof.
  unfold convertMessage.
  destruct (if negb (msgTimeSent msg =? 0) then _ else _) as [sent sentUnix].
  destruct (msgEdits msg) as [|edit rest]; reflexivity.
Qed.

Lemma convertMessage_body_quote (self : string) (msg : Message) :
  (jmsgBody (convertMessage self msg), jmsgQuote (convertMessage self msg)) =
  match msgEdits msg with
  | [] => (Text (msgBody msg), convertQuote (msgQuote msg))
  | _ :: _ => ("", None)
  end.
Proof.
  unfold convertMessage.
  destruct (if negb (msgTimeSent msg =? 0) then _ else _) as [sent sentUnix].
  destruct (msgEdits msg) as [|edit rest]; reflexivity.
Qed.

Lemma convertMessage_groupChanges (self : string) (msg : Message) :
  jmsgGroupV2Change (convertMessage self msg) =
  map convertGroupV2Change (msgGroupV2Change msg).
Proof.
  unfold convertMessage.
  destruct (if negb (msgTimeSent msg =? 0) then _ else _) as [sent sentUnix].
  destruct (msgEdits msg) as [|edit rest]; reflexivity.
Qed.

Lemma member_quote_body (q : jsonQuote) :
  member "body" (marshalQuote q) =
  if String.eqb (jquoteBody q) "" then None
  else Some (encoding.JString (jquoteBody q)).
Proof.
  destruct q as [from sent body atts quoted].
  unfold member, marshalQuote. lookup_members. cbn [jquoteBody].
  destruct (String.eqb sent ""); destruct (String.eqb body ""); reflexivity.
Qed.

Lemma member_quote_from (q : jsonQuote) :
  member "from" (marshalQuote q) = Some (encoding.JString (jquoteFrom q)).
Proof.
  destruct q as [from sent body atts quoted].
  unfold member, marshalQuote. lookup_members. reflexivity.
Qed.

Lemma jquoteBody_convertQuoteOf (q : Quote) :
  jquoteBody (convertQuoteOf q) = Text (qBody q).
Proof. destruct q; reflexivity. Qed.

Lemma jquoteFrom_convertQuoteOf (q : Quote) :
  jquoteFrom (convertQuoteOf q) = DetailedDisplayName (qRecipient q).
Proof. destruct q; reflexivity. Qed.

(** [convertQuote] carries every quote of the chain into the export. *)
Lemma quoteExportedAs_convertQuoteOf :
  forall q : Quote, quoteExportedAs q (convertQuoteOf q).
Proof.
  fix IH 1. intros [rpt timeSent body atts [q'|]];
    cbn [convertQuoteOf quoteExportedAs]; repeat split.
  apply IH.
Qed.

(** C6: the export record of a message without edit revisions carries the
    live body and the live quote of the message.  Its body is the body text,
    written as the body member unless it is empty.  When the message has a
    quote the record has a quote, which shows that quote link by link (the
    author's display name, the sent time of a positive timestamp, the body
    text and the attachments of every quote of the chain) and is written as
    the quote member; when the message has no quote the record has none.
    The export record of a message with at least one edit has an empty body
    and no quote, and neither a body nor a quote member is written for
    it. *)
Theorem body_and_quote_only_without_edits (self : string) (msg : Message) :
  let jmsg := convertMessage self msg in
  (msgEdits msg = [] ->
     jmsgBody jmsg = Text (msgBody msg)
     /\ jmsgQuote jmsg = convertQuote (msgQuote msg)
     /\ member "body" (marshalMessage jmsg)
        = (if String.eqb (Text (msgBody msg)) "" then None
           else Some (encoding.JString (Text (msgBody msg))))
     /\ (msgQuote msg = None ->
           jmsgQuote jmsg = None /\ member "quote" (marshalMessage jmsg) = None)
     /\ (forall q, msgQuote msg = Some q ->
           exists jq,
             jmsgQuote jmsg = Some jq
             /\ quoteExportedAs q jq
             /\ member "quote" (marshalMessage jmsg) = Some (marshalQuote jq)
             /\ member "from" (marshalQuote jq)
                = Some (encoding.JString (DetailedDisplayName (qRecipient q)))
             /\ member "body" (marshalQuote jq)
                = (if String.eqb (Text (qBody q)) "" then None
                   else Some (encoding.JString (Text (qBody q))))))
  /\ (msgEdits msg <> [] ->
        jmsgBody jmsg = ""
        /\ jmsgQuote jmsg = None
        /\ member "body" (marshalMessage jmsg) = None
        /\ member "quote" (marshalMessage jmsg) = None).
Proof.
  intros jmsg. subst jmsg.
  pose proof (convertMessage_body_quote self msg) as H.
  split.
  - intros He. rewrite He in H. injection H as Hb Hq.
    rewrite member_body, member_quote, Hb, Hq.
    split; [reflexivity|]. split; [reflexivity|]. split; [reflexivity|]. split.
    + intros ->. split; reflexivity.
    + intros q ->. exists (convertQuoteOf q). cbn [convertQuote option_map].
      rewrite member_quote_from, member_quote_body.
      rewrite jquoteFrom_convertQuoteOf, jquoteBody_convertQuoteOf.
      repeat split. apply quoteExportedAs_convertQuoteOf.
  - intros He. destruct (msgEdits msg) as [|edit rest]; [congruence|].
    injection H as Hb Hq.
    rewrite member_body, member_quote, Hb, Hq. repeat split; reflexivity.
Qed.

(** C8: a group change event whose count is zero is exported without a
    count member; an event whose count is greater than zero is exported with
    a count member that is exactly that number.  The group change records of
    a message are the conversions of its events, in order. *)
Theorem group_change_count_omitted_when_zero (self : string) (msg : Message) :
  jmsgGroupV2Change (convertMessage self msg)
  = map convertGroupV2Change (msgGroupV2Change msg)
  /\ forall gc : GroupV2Change,
       let jgc := convertGroupV2Change gc in
       (gcCount gc = 0 ->
          jgcCount jgc = 0 /\ member "count" (marshalGroupV2Change jgc) = None)
       /\ (0 < gcCount gc ->
             jgcCount jgc = gcCount gc
             /\ member "count" (marshalGroupV2Change jgc)
                = Some (encoding.JInt (gcCount gc))).
Proof.
  split; [apply convertMessage_groupChanges|].
  intros gc jgc. subst jgc. rewrite member_count.
  unfold convertGroupV2Change. cbn [jgcCount].
  split.
  - intros ->. split; reflexivity.
  - intros Hpos.
    destruct (gcCount gc =? 0) eqn:E; [apply Z.eqb_eq in E; lia|].
    rewrite E. split; reflexivity.
Qed.

(** C10: the export record of an outgoing message has no received member,
    whatever the received timestamp of the message is; a received member is
    emitted only for a message that is not outgoing and whose received
    timestamp is not zero, and it is then the formatted received
    timestamp. *)
Theorem received_only_for_incoming (self : string) (msg : Message) :
  let jmsg := convertMessage self msg in
  (IsOutgoing msg = true ->
     jmsgReceived jmsg = "" /\ member "received" (marshalMessage jmsg) = None)
  /\ (forall v, member "received" (marshalMessage jmsg) = Some v ->
        IsOutgoing msg = false
        /\ msgTimeRecv msg <> 0
        /\ v = encoding.JString (formatTime (msgTimeRecv msg))).
Proof.
  intros jmsg. subst jmsg. rewrite member_received, convertMessage_received.
  split.
  - intros ->. split; reflexivity.
  - intros v H. destruct (IsOutgoing msg); [discriminate H|].
    destruct (Z.eqb_spec (msgTimeRecv msg) 0) as [E|E]; [discriminate H|].
    cbn [negb andb] in H.
    destruct (String.eqb (formatTime (msgTimeRecv msg)) ""); [discriminate H|].
    injection H as <-. repeat split. exact E.
Qed.

(** ** Properties of the serializer *)

Lemma noLineFeed_app (a b : string) :
  noLineFeed (a ++ b) = noLineFeed a && noLineFeed b.
Proof.
  induction a as [|c a IH]; simpl.
  - reflexivity.
  - rewrite IH, andb_assoc. reflexivity.
Qed.

Lemma get_hex (k : nat) :
  forall c, String.get k "0123456789abcdef" = Some c -> (byteOf c =? 10) = false.
Proof.
  do 16 (destruct k as [|k]; [intros c H; injection H as <-; reflexivity|]).
  intros c H. discriminate H.
Qed.

Lemma noLineFeed_hexDigit (n : Z) : (byteOf (encoding.hexDigit n) =? 10) = false.
Proof.
  unfold encoding.hexDigit.
  destruct (String.get (Z.to_nat n) "0123456789abcdef") as [c|] eqn:E.
  - eapply get_hex; eassumption.
  - reflexivity.
Qed.

Lemma noLineFeed_escapeByte (esc : bool) (b : ascii) :
  noLineFeed (encoding.escapeByte esc b) = true.
Proof.
  unfold encoding.escapeByte.
  destruct (encoding.safeByte esc b) eqn:Hsafe.
  - unfold encoding.safeByte in Hsafe. simpl.
    destruct (Z.eqb_spec (byteOf b) 10) as [E|E]; [|reflexivity].
    rewrite E in Hsafe. discriminate Hsafe.
  - destruct ((byteOf b =? 92) || (byteOf b =? 34)) eqn:Hq.
    + simpl. destruct (Z.eqb_spec (byteOf b) 10) as [E|E]; [|reflexivity].
      rewrite E in Hq. discriminate Hq.
    + repeat match goal with
             | |- context [if ?x =? ?y then _ else _] => destruct (x =? y); [reflexivity|]
             end.
      simpl. rewrite !noLineFeed_hexDigit. reflexivity.
Qed.

Lemma byteIn_get (lo hi : Z) (s : string) (i : nat) :
  encoding.byteIn lo hi s i = true ->
  exists c, String.get i s = Some c /\ lo <= byteOf c.
Proof.
  unfold encoding.byteIn. destruct (String.get i s) as [c|]; [|discriminate].
  intros H. apply andb_prop in H. destruct H as [H _].
  exists c. split; [reflexivity|]. apply Z.leb_le, H.
Qed.

(** The bytes of a rune that the decoder accepts are all 0x80 or more. *)
Lemma acceptRune_noLineFeed (b : ascii) (s : string) (lo hi : Z) (n size : nat) :
  128 <= lo -> 128 <= byteOf b ->
  (n = 2 \/ n = 3 \/ n = 4)%nat ->
  encoding.acceptRune (String b s) lo hi n = Some size ->
  noLineFeed (String.substring 0 size (String b s)) = true.
Proof.
  intros Hlo Hb Hn. unfold encoding.acceptRune.
  destruct (_ && _ && _) eqn:H; [|discriminate]. intros E. injection E as <-.
  apply andb_prop in H. destruct H as [H H3].
  apply andb_prop in H. destruct H as [H1 H2].
  apply byteIn_get in H1. destruct H1 as (c1 & G1 & L1).
  assert (N0 : (byteOf b =? 10) = false) by (apply Z.eqb_neq; lia).
  assert (N1 : (byteOf c1 =? 10) = false) by (apply Z.eqb_neq; lia).
  destruct s as [|x1 s1]; [discriminate G1|]. simpl in G1. injection G1 as ->.
  destruct Hn as [-> | [-> | ->]].
  - simpl. rewrite N0, N1. destruct s1; reflexivity.
  - simpl in H2. apply byteIn_get in H2. destruct H2 as (c2 & G2 & L2).
    destruct s1 as [|x2 s2]; [discriminate G2|]. simpl in G2. injection G2 as ->.
    assert (N2 : (byteOf c2 =? 10) = false) by (apply Z.eqb_neq; lia).
    simpl. rewrite N0, N1, N2. destruct s2; reflexivity.
  - simpl in H2, H3. apply byteIn_get in H2. destruct H2 as (c2 & G2 & L2).
    apply byteIn_get in H3. destruct H3 as (c3 & G3 & L3).
    destruct s1 as [|x2 s2]; [discriminate G2|]. simpl in G2. injection G2 as ->.
    destruct s2 as [|x3 s3]; [discriminate G3|]. simpl in G3. injection G3 as ->.
    assert (N2 : (byteOf c2 =? 10) = false) by (apply Z.eqb_neq; lia).
    assert (N3 : (byteOf c3 =? 10) = false) by (apply Z.eqb_neq; lia).
    simpl. rewrite N0, N1, N2, N3. destruct s3; reflexivity.
Qed.

Lemma decodeRuneSize_noLineFeed (s : string) (size : nat) :
  encoding.decodeRuneSize s = Some size ->
  noLineFeed (String.substring 0 size s) = true.
Proof.
  destruct s as [|b s]; [discriminate|].
  unfold encoding.decodeRuneSize. cbv zeta.
  repeat match goal with
         | |- context [if ?c then _ else _] =>
             destruct c eqn:?;
             [ apply acceptRune_noLineFeed; [lia| |auto]
             | ]
         end; try discriminate.
  all: repeat match goal with
         | H : (_ && _) = true |- _ => apply andb_prop in H; destruct H
         | H : (_ <=? _) = true |- _ => apply Z.leb_le in H
         | H : (_ =? _) = true |- _ => apply Z.eqb_eq in H
         end; lia.
Qed.

(** An encoded string holds no line feed: line feeds of the text are
    escaped. *)
Lemma noLineFeed_appendStringFrom (esc : bool) (s : string) :
  forall skip : nat, noLineFeed (encoding.appendStringFrom esc skip s) = true.
Proof.
  induction s as [|b s IH]; intros skip; [reflexivity|].
  cbn [encoding.appendStringFrom].
  destruct skip as [|k]; [|apply IH].
  destruct (byteOf b <? 128).
  - rewrite noLineFeed_app, noLineFeed_escapeByte. apply IH.
  - destruct (encoding.decodeRuneSize (String b s)) as [size|] eqn:E.
    + rewrite noLineFeed_app, IH, andb_true_r.
      destruct (String.eqb _ encoding.lineSeparator); [reflexivity|].
      destruct (String.eqb _ encoding.paragraphSeparator); [reflexivity|].
      apply decodeRuneSize_noLineFeed, E.
    + rewrite noLineFeed_app, IH. reflexivity.
Qed.

Lemma solidText_noLineFeed (s : string) : solidText s = true -> noLineFeed s = true.
Proof.
  induction s as [|b s IH]; simpl; [reflexivity|].
  intros H. apply andb_prop in H. destruct H as [H Hs].
  apply andb_prop in H. destruct H as [H _]. rewrite H, (IH Hs). reflexivity.
Qed.

Lemma solidText_string_of_uint (d : Decimal.uint) :
  solidText (NilEmpty.string_of_uint d) = true.
Proof. induction d; simpl; auto. Qed.

Lemma solidText_appendInt (n : Z) :
  solidText (encoding.appendInt n) = true /\ encoding.appendInt n <> EmptyString.
Proof.
  unfold encoding.appendInt, NilZero.string_of_int, NilZero.string_of_uint.
  destruct (Z.to_int n) as [d|d]; destruct d; simpl;
    rewrite ?solidText_string_of_uint; split; (reflexivity || discriminate).
Qed.

(** Induction on a JSON value, with the hypothesis available for the items
    of an array and for the members of an object. *)
Lemma value_induction (P : encoding.value -> Prop) :
  (forall s, P (encoding.JString s)) ->
  (forall n, P (encoding.JInt n)) ->
  (forall items, Forall P items -> P (encoding.JArray items)) ->
  (forall members, Forall (fun kv => P (snd kv)) members -> P (encoding.JObject members)) ->
  forall v, P v.
Proof.
  intros Hs Hn Ha Ho. fix IH 1. intros [s|n|items|members].
  - apply Hs.
  - apply Hn.
  - apply Ha. induction items as [|x items IHitems]; constructor; [apply IH|exact IHitems].
  - apply Ho. induction members as [|[k x] members IHm]; constructor;
      [apply IH|exact IHm].
Qed.


(** *** Text is written as it is *)

Lemma escapeByte_plainByte (b : ascii) :
  plainByte b = true -> encoding.escapeByte false b = String b EmptyString.
Proof.
  unfold plainByte, encoding.escapeByte, encoding.safeByte. intros H.
  apply andb_prop in H. destruct H as [H H92].
  apply andb_prop in H. destruct H as [H H34].
  apply andb_prop in H. destruct H as [H32 _].
  rewrite H32, H34, H92. reflexivity.
Qed.

Lemma appendStringFrom_plainText (s : string) :
  plainText s = true -> encoding.appendStringFrom false 0 s = s.
Proof.
  induction s as [|b s IH]; [reflexivity|].
  cbn [plainText encoding.appendStringFrom]. intros H.
  apply andb_prop in H. destruct H as [Hb Hs].
  rewrite (escapeByte_plainByte _ Hb), (IH Hs).
  unfold plainByte in Hb.
  apply andb_prop in Hb. destruct Hb as [Hb _].
  apply andb_prop in Hb. destruct Hb as [Hb _].
  apply andb_prop in Hb. destruct Hb as [_ Hb].
  rewrite Hb. reflexivity.
Qed.

(** *** The document is laid out by nesting level *)

Lemma string_app_assoc (a b c : string) : ((a ++ b) ++ c = a ++ (b ++ c))%string.
Proof. induction a as [|x a IH]; [reflexivity|]. cbn. rewrite IH. reflexivity. Qed.

Lemma string_app_nil_r (a : string) : (a ++ "" = a)%string.
Proof. induction a as [|x a IH]; [reflexivity|]. cbn. rewrite IH. reflexivity. Qed.

(** The lines after the first one, as they are written: each behind a line
    feed and its indentation. *)
Fixpoint continuation (rest : list line) : string :=
  match rest with
  | [] => EmptyString
  | l :: r => (newline ++ indentLine l ++ continuation r)%string
  end.

Lemma continuation_app (a b : list line) :
  continuation (a ++ b) = (continuation a ++ continuation b)%string.
Proof.
  induction a as [|l a IH]; [reflexivity|].
  cbn [continuation app]. rewrite IH, !string_app_assoc. reflexivity.
Qed.

Lemma continuation_unlines (rest : list line) :
  (continuation rest ++ newline = newline ++ unlines (map indentLine rest))%string.
Proof.
  induction rest as [|l r IH]; [reflexivity|].
  cbn [continuation map unlines]. rewrite !string_app_assoc, IH. reflexivity.
Qed.

Lemma appendNewline_exportConfig (depth : nat) :
  encoding.appendNewline exportConfig depth
  = (newline ++ encoding.repeatString "  " depth)%string.
Proof. reflexivity. Qed.

(** A value that is laid out from [depth] starts on a line of that level,
    and its encoding is the text of that line followed by its other
    lines. *)
Definition laidOut (depth : nat) (lines : list line) (text : string) : Prop :=
  exists t rest, lines = (depth, t) :: rest /\ text = (t ++ continuation rest)%string.

Lemma laidOut_continuation (depth : nat) (lines : list line) (text : string) :
  laidOut depth lines text ->
  (encoding.appendNewline exportConfig depth ++ text)%string = continuation lines.
Proof.
  intros (t & rest & -> & ->). rewrite appendNewline_exportConfig.
  cbn [continuation]. unfold indentLine. cbn [fst snd].
  rewrite !string_app_assoc. reflexivity.
Qed.

Lemma joinItems_layoutSeq (A : Type) (f : A -> string -> list line) (g : A -> string)
    (depth : nat) (items : list A) :
  items <> [] ->
  Forall (fun x => forall sfx, laidOut depth (f x sfx) (g x ++ sfx)%string) items ->
  (encoding.appendNewline exportConfig depth
     ++ encoding.joinItems exportConfig depth (map g items))%string
  = continuation (layoutSeq f items).
Proof.
  intros Hne Hall. induction Hall as [|x rest Hx Hrest IH]; [congruence|].
  destruct rest as [|y rest'].
  - cbn [map encoding.joinItems layoutSeq].
    rewrite <- (laidOut_continuation (Hx "")), string_app_nil_r. reflexivity.
  - change (layoutSeq f (x :: y :: rest')) with (f x "," ++ layoutSeq f (y :: rest')).
    change (encoding.joinItems exportConfig depth (map g (x :: y :: rest')))
      with (g x ++ "," ++ encoding.appendNewline exportConfig depth
              ++ encoding.joinItems exportConfig depth (map g (y :: rest')))%string.
    rewrite continuation_app, <- (laidOut_continuation (Hx ",")), <- IH by discriminate.
    rewrite !string_app_assoc. reflexivity.
Qed.

Lemma joinItems_layoutSeq_tail (A : Type) (f : A -> string -> list line)
    (g : A -> string) (depth : nat) (items : list A) (tail : string) :
  items <> [] ->
  Forall (fun x => forall sfx, laidOut depth (f x sfx) (g x ++ sfx)%string) items ->
  (encoding.appendNewline exportConfig depth
     ++ encoding.joinItems exportConfig depth (map g items) ++ tail)%string
  = (continuation (layoutSeq f items) ++ tail)%string.
Proof.
  intros Hne Hall. rewrite <- string_app_assoc, (joinItems_layoutSeq f g Hne Hall).
  reflexivity.
Qed.

(** The encoding of a value is its layout, written line by line. *)
Lemma render_laidOut (v : encoding.value) :
  forall (depth : nat) (prefix suffix : string),
    laidOut depth (layout false depth prefix v suffix)
            (prefix ++ encoding.render exportConfig depth v ++ suffix)%string.
Proof.
  induction v as [s|n|items IH|members IH] using value_induction;
    intros depth prefix suffix.
  - eexists; eexists; split; [reflexivity|]. cbn. rewrite string_app_nil_r. reflexivity.
  - eexists; eexists; split; [reflexivity|]. cbn. rewrite string_app_nil_r. reflexivity.
  - destruct items as [|x items].
    + eexists; eexists; split; [reflexivity|]. cbn. rewrite string_app_nil_r. reflexivity.
    + eexists; eexists; split; [reflexivity|].
      change (encoding.render exportConfig depth (encoding.JArray (x :: items)))
        with ("[" ++ encoding.appendNewline exportConfig (S depth)
                ++ encoding.joinItems exportConfig (S depth)
                     (map (encoding.render exportConfig (S depth)) (x :: items))
                ++ encoding.appendNewline exportConfig depth ++ "]")%string.
      rewrite !string_app_assoc.
      rewrite (@joinItems_layoutSeq_tail _ (fun x sfx => layout false (S depth) "" x sfx)
                 (encoding.render exportConfig (S depth)) (S depth) (x :: items)).
      * rewrite continuation_app. cbn [continuation]. unfold indentLine. cbn [fst snd].
        rewrite appendNewline_exportConfig, !string_app_assoc, !string_app_nil_r.
        reflexivity.
      * discriminate.
      * revert IH. apply Forall_impl. intros y Hy sfx. apply (Hy (S depth) "" sfx).
  - destruct members as [|kx members].
    + eexists; eexists; split; [reflexivity|]. cbn. rewrite string_app_nil_r. reflexivity.
    + eexists; eexists; split; [reflexivity|].
      change (encoding.render exportConfig depth (encoding.JObject (kx :: members)))
        with ("{" ++ encoding.appendNewline exportConfig (S depth)
                ++ encoding.joinItems exportConfig (S depth)
                     (map (fun kv => let '(k, x) := kv in
                                     (encoding.appendString false k ++ ": "
                                        ++ encoding.render exportConfig (S depth) x)%string)
                          (kx :: members))
                ++ encoding.appendNewline exportConfig depth ++ "}")%string.
      rewrite !string_app_assoc.
      rewrite (@joinItems_layoutSeq_tail _
                 (fun kv sfx => let '(k, x) := kv in
                                layout false (S depth)
                                       (encoding.appendString false k ++ ": ")%string x sfx)
                 (fun kv => let '(k, x) := kv in
                            (encoding.appendString false k ++ ": "
                               ++ encoding.render exportConfig (S depth) x)%string)
                 (S depth) (kx :: members)).
      * rewrite continuation_app. cbn [continuation]. unfold indentLine. cbn [fst snd].
        rewrite appendNewline_exportConfig, !string_app_assoc, !string_app_nil_r.
        reflexivity.
      * discriminate.
      * revert IH. apply Forall_impl. intros [k y] Hy sfx. cbn [snd] in Hy.
        pose proof (Hy (S depth) (encoding.appendString false k ++ ": ")%string sfx) as H.
        rewrite !string_app_assoc in H |- *. exact H.
Qed.

(** The document of an export model is its layout from level 0: every line
    is written with two spaces for each level of nesting, and ended by a
    line feed. *)
Lemma renderExport_layout (e : jsonExport) :
  renderExport e = unlines (map indentLine (layout false 0 "" (marshalExport e) "")).
Proof.
  unfold renderExport, encoding.Encode.
  destruct (render_laidOut (marshalExport e) 0 "" "") as (t & rest & -> & H).
  cbn [String.append] in H. rewrite string_app_nil_r in H. rewrite H.
  cbn [map unlines]. unfold indentLine at 1. cbn [fst snd encoding.repeatString String.append].
  rewrite string_app_assoc, continuation_unlines. reflexivity.
Qed.


Lemma lineText_app (a b : string) :
  lineText a = true -> noLineFeed b = true -> lineText (a ++ b) = true.
Proof.
  unfold lineText. intros Ha Hb. apply andb_prop in Ha. destruct Ha as [Hlf Hhead].
  rewrite noLineFeed_app, Hlf, Hb. destruct a; [discriminate Hhead|exact Hhead].
Qed.

Lemma lineText_appendString (esc : bool) (s : string) :
  lineText (encoding.appendString esc s) = true.
Proof.
  unfold lineText, encoding.appendString, doubleQuote. cbn [String.append noLineFeed].
  rewrite noLineFeed_app, noLineFeed_appendStringFrom. reflexivity.
Qed.

Lemma lineText_solidText (s : string) :
  s <> EmptyString -> solidText s = true -> lineText s = true.
Proof.
  intros Hne H. unfold lineText. rewrite (solidText_noLineFeed _ H).
  destruct s as [|b s]; [congruence|]. cbn [solidText] in H.
  apply andb_prop in H. destruct H as [H _]. apply andb_prop in H. destruct H as [_ H].
  exact H.
Qed.

Lemma lineText_appendInt (n : Z) : lineText (encoding.appendInt n) = true.
Proof.
  destruct (solidText_appendInt n) as [Hs Hne]. apply lineText_solidText; assumption.
Qed.

Lemma lineText_noLineFeed (t : string) : lineText t = true -> noLineFeed t = true.
Proof. unfold lineText. intros H. apply andb_prop in H. apply H. Qed.

(** The text before a value on its line: nothing, or the start of a line. *)
Definition linePrefix (prefix : string) : Prop :=
  prefix = EmptyString \/ lineText prefix = true.

Lemma lineText_atom (prefix atom suffix : string) :
  linePrefix prefix -> lineText atom = true -> noLineFeed suffix = true ->
  lineText (prefix ++ atom ++ suffix) = true.
Proof.
  intros [-> | Hp] Ha Hs.
  - cbn [String.append]. apply lineText_app; assumption.
  - apply lineText_app; [exact Hp|].
    rewrite noLineFeed_app, (lineText_noLineFeed _ Ha), Hs. reflexivity.
Qed.

Lemma Forall_layoutSeq (A : Type) (f : A -> string -> list line) (P : line -> Prop)
    (items : list A) :
  Forall (fun x => forall sfx, noLineFeed sfx = true -> Forall P (f x sfx)) items ->
  Forall P (layoutSeq f items).
Proof.
  induction 1 as [|x rest Hx Hrest IH]; [constructor|].
  destruct rest as [|y rest'].
  - apply Hx. reflexivity.
  - change (layoutSeq f (x :: y :: rest')) with (f x "," ++ layoutSeq f (y :: rest')).
    apply Forall_app. split; [apply Hx; reflexivity|exact IH].
Qed.

(** Every line of a layout is a line: its text holds no line feed and does
    not start with a space. *)
Lemma layout_lineText (esc : bool) (v : encoding.value) :
  forall (depth : nat) (prefix suffix : string),
    linePrefix prefix -> noLineFeed suffix = true ->
    Forall (fun l => lineText (snd l) = true) (layout esc depth prefix v suffix).
Proof.
  induction v as [s|n|items IH|members IH] using value_induction;
    intros depth prefix suffix Hp Hs.
  - constructor; [|constructor]. cbn [snd].
    apply lineText_atom; [exact Hp|apply lineText_appendString|exact Hs].
  - constructor; [|constructor]. cbn [snd].
    apply lineText_atom; [exact Hp|apply lineText_appendInt|exact Hs].
  - destruct items as [|x items].
    + constructor; [|constructor]. cbn [snd].
      apply lineText_atom; [exact Hp|reflexivity|exact Hs].
    + cbn [layout]. constructor.
      * cbn [snd]. rewrite <- (string_app_nil_r "[").
        apply lineText_atom; [exact Hp|reflexivity|reflexivity].
      * apply Forall_app. split.
        -- apply Forall_layoutSeq. revert IH. apply Forall_impl.
           intros y Hy sfx Hsfx. apply Hy; [left; reflexivity|exact Hsfx].
        -- constructor; [|constructor]. cbn [snd].
           apply (lineText_app "]"); [reflexivity|exact Hs].
  - destruct members as [|kx members].
    + constructor; [|constructor]. cbn [snd].
      apply lineText_atom; [exact Hp|reflexivity|exact Hs].
    + cbn [layout]. constructor.
      * cbn [snd]. rewrite <- (string_app_nil_r "{").
        apply lineText_atom; [exact Hp|reflexivity|reflexivity].
      * apply Forall_app. split.
        -- apply Forall_layoutSeq. revert IH. apply Forall_impl.
           intros [k y] Hy sfx Hsfx. apply Hy; [|exact Hsfx].
           right. apply lineText_app; [apply lineText_appendString|reflexivity].
        -- constructor; [|constructor]. cbn [snd].
           apply (lineText_app "}"); [reflexivity|exact Hs].
Qed.


(** *** Markup characters are written as they are *)

Lemma substring_0_0 (s : string) : String.substring 0 0 s = EmptyString.
Proof. destruct s; reflexivity. Qed.

(** A byte below 0x80 ends a rune: whether the bytes before it start a rune
    that the decoder accepts does not depend on it or on what follows it. *)
Lemma acceptRune_before_ascii (c b : ascii) (s1 s2 : string) (lo hi : Z) (n : nat) :
  byteOf b < 128 -> 128 <= lo ->
  (n = 2 \/ n = 3 \/ n = 4)%nat ->
  encoding.acceptRune (String c (s1 ++ String b s2)) lo hi n
  = encoding.acceptRune (String c s1) lo hi n
  /\ forall size,
       encoding.acceptRune (String c s1) lo hi n = Some size ->
       (size - 1 <= String.length s1)%nat
       /\ String.substring 0 size (String c (s1 ++ String b s2))
          = String.substring 0 size (String c s1).
Proof.
  intros Hb Hlo Hn.
  assert (Hblo : (lo <=? byteOf b) = false) by (apply Z.leb_gt; lia).
  assert (Hb128 : (128 <=? byteOf b) = false) by (apply Z.leb_gt; lia).
  unfold encoding.acceptRune, encoding.byteIn.
  destruct s1 as [|c1 [|c2 [|c3 s1]]]; destruct Hn as [-> | [-> | ->]];
    cbn [String.get String.append Nat.leb orb String.length String.substring Nat.sub];
    rewrite ?Hblo, ?Hb128;
    repeat (progress (cbn [andb orb]; rewrite ?andb_false_r));
    (split; [reflexivity|]);
    intros size H;
    repeat match type of H with
           | (if ?cond then _ else _) = _ => destruct cond; [|discriminate H]
           end;
    try discriminate H; injection H as <-;
    cbn [String.substring Nat.sub]; rewrite ?substring_0_0; (split; [lia|reflexivity]).
Qed.

Lemma decodeRuneSize_before_ascii (c b : ascii) (s1 s2 : string) :
  byteOf b < 128 ->
  encoding.decodeRuneSize (String c (s1 ++ String b s2))
  = encoding.decodeRuneSize (String c s1)
  /\ forall size,
       encoding.decodeRuneSize (String c s1) = Some size ->
       (size - 1 <= String.length s1)%nat
       /\ String.substring 0 size (String c (s1 ++ String b s2))
          = String.substring 0 size (String c s1).
Proof.
  intros Hb. unfold encoding.decodeRuneSize. cbv zeta.
  repeat match goal with
         | |- context [if ?cond then encoding.acceptRune _ _ _ _ else _] =>
             destruct cond;
             [apply acceptRune_before_ascii; [exact Hb|lia|auto]|]
         end.
  split; [reflexivity|]. intros size H. discriminate H.
Qed.

(** The encoding of a text splits at every byte below 0x80: the text before
    the byte and the text after it are encoded as if each stood alone, and
    the byte between them is escaped on its own. *)
Lemma appendStringFrom_ascii (esc : bool) (b : ascii) (s2 : string) :
  byteOf b < 128 ->
  forall (s1 : string) (skip : nat),
    (skip <= String.length s1)%nat ->
    encoding.appendStringFrom esc skip (s1 ++ String b s2)
    = (encoding.appendStringFrom esc skip s1
         ++ encoding.escapeByte esc b ++ encoding.appendStringFrom esc 0 s2)%string.
Proof.
  intros Hb. induction s1 as [|c s1 IH]; intros skip Hskip.
  - cbn [String.length] in Hskip. assert (skip = 0%nat) as -> by lia.
    cbn [String.append encoding.appendStringFrom].
    replace (byteOf b <? 128) with true by (symmetry; apply Z.ltb_lt; exact Hb).
    reflexivity.
  - cbn [String.append encoding.appendStringFrom]. cbn [String.length] in Hskip.
    destruct skip as [|k]; [|apply IH; lia].
    destruct (byteOf c <? 128).
    + rewrite IH by lia. rewrite ?string_app_assoc. reflexivity.
    + destruct (@decodeRuneSize_before_ascii c b s1 s2 Hb) as [-> Hsize].
      destruct (encoding.decodeRuneSize (String c s1)) as [size|].
      * destruct (Hsize size eq_refl) as [Hle ->].
        rewrite IH by exact Hle. rewrite ?string_app_assoc. reflexivity.
      * rewrite IH by lia. rewrite ?string_app_assoc. reflexivity.
Qed.

Lemma escapeByte_markup (b : ascii) :
  markupByte b = true ->
  encoding.escapeByte false b = String b EmptyString
  /\ encoding.escapeByte true b <> String b EmptyString.
Proof.
  unfold markupByte. intros H.
  assert (Hc : byteOf b = 60 \/ byteOf b = 62 \/ byteOf b = 38).
  { apply orb_prop in H. destruct H as [H|H]; [apply orb_prop in H; destruct H as [H|H]|];
      apply Z.eqb_eq in H; auto. }
  unfold encoding.escapeByte, encoding.safeByte.
  destruct Hc as [E | [E | E]]; rewrite E; cbn; split; try reflexivity;
    intros Heq; injection Heq as Heq _; rewrite <- Heq in E; discriminate E.
Qed.


(** *** Where a member is written *)

Lemma layoutSeq_item (A : Type) (f : A -> string -> list line) (items : list A) (x : A) :
  In x items ->
  exists sfx, (sfx = "" \/ sfx = ",") /\ incl (f x sfx) (layoutSeq f items).
Proof.
  induction items as [|y rest IH]; [intros []|].
  intros Hin. destruct rest as [|z rest'].
  - destruct Hin as [-> | []]. exists "". split; [left; reflexivity|].
    cbn [layoutSeq]. apply incl_refl.
  - change (layoutSeq f (y :: z :: rest')) with (f y "," ++ layoutSeq f (z :: rest')).
    destruct Hin as [-> | Hin].
    + exists ",". split; [right; reflexivity|]. apply incl_appl, incl_refl.
    + destruct (IH Hin) as (sfx & Hsfx & Hincl).
      exists sfx. split; [exact Hsfx|]. apply incl_appr, Hincl.
Qed.

Lemma lookupField_In (name : string) (fields : list (string * encoding.value))
    (x : encoding.value) :
  lookupField name fields = Some x -> In (name, x) fields.
Proof.
  induction fields as [|[k v] rest IH]; [discriminate|].
  cbn [lookupField]. destruct (String.eqb_spec k name) as [->|Hne].
  - intros H. injection H as ->. left. reflexivity.
  - intros H. right. apply IH, H.
Qed.

(** A member of a record is laid out one level below the record, behind its
    key, and its lines are among the lines of the record. *)
Lemma member_layout (esc : bool) (name : string) (v x : encoding.value)
    (depth : nat) (prefix suffix : string) :
  member name v = Some x ->
  exists sfx,
    (sfx = "" \/ sfx = ",")
    /\ incl (layout esc (S depth) (encoding.appendString esc name ++ ": ")%string x sfx)
            (layout esc depth prefix v suffix).
Proof.
  destruct v as [s|n|items|fields]; try discriminate.
  cbn [member]. intros H. apply lookupField_In in H.
  destruct fields as [|kx fields]; [destruct H|].
  destruct (@layoutSeq_item _
              (fun kv sfx => let '(k, y) := kv in
                             layout esc (S depth) (encoding.appendString esc k ++ ": ")%string
                                    y sfx)
              (kx :: fields) (name, x) H) as (sfx & Hsfx & Hincl).
  exists sfx. split; [exact Hsfx|].
  cbn [layout]. apply incl_tl, incl_appl, Hincl.
Qed.

(** An item of an array is laid out one level below the array, and its
    lines are among the lines of the array. *)
Lemma item_layout (esc : bool) (items : list encoding.value) (x : encoding.value)
    (depth : nat) (prefix suffix : string) :
  In x items ->
  exists sfx,
    (sfx = "" \/ sfx = ",")
    /\ incl (layout esc (S depth) "" x sfx)
            (layout esc depth prefix (encoding.JArray items) suffix).
Proof.
  intros H. destruct items as [|y items]; [destruct H|].
  destruct (@layoutSeq_item _ (fun y sfx => layout esc (S depth) "" y sfx)
              (y :: items) x H) as (sfx & Hsfx & Hincl).
  exists sfx. split; [exact Hsfx|].
  cbn [layout]. apply incl_tl, incl_appl, Hincl.
Qed.

Lemma member_messages (e : jsonExport) :
  member "messages" (marshalExport e)
  = Some (encoding.JArray (map marshalMessage (jexMessages e))).
Proof. reflexivity. Qed.

(** The lines of the record of a message are among the lines of the
    document, two levels deep. *)
Lemma message_layout (e : jsonExport) (m : jsonMessage) :
  In m (jexMessages e) ->
  exists sfx,
    (sfx = "" \/ sfx = ",")
    /\ incl (layout false 2 "" (marshalMessage m) sfx)
            (layout false 0 "" (marshalExport e) "").
Proof.
  intros Hin.
  destruct (@member_layout false "messages" (marshalExport e) _ 0 "" ""
              (member_messages e)) as (sfx1 & _ & Hincl1).
  destruct (@item_layout false (map marshalMessage (jexMessages e)) (marshalMessage m) 1
              (encoding.appendString false "messages" ++ ": ")%string sfx1
              (in_map marshalMessage _ _ Hin)) as (sfx2 & Hsfx2 & Hincl2).
  exists sfx2. split; [exact Hsfx2|].
  eapply incl_tran; eassumption.
Qed.

(** A member of the record of a message that is a text is one line of the
    document, three levels deep: the key, a colon and a space, the encoded
    text, and a comma unless the member is the last one. *)
Lemma message_text_line (e : jsonExport) (m : jsonMessage) (name text : string) :
  In m (jexMessages e) ->
  member name (marshalMessage m) = Some (encoding.JString text) ->
  exists sfx,
    (sfx = "" \/ sfx = ",")
    /\ In (3%nat, (encoding.appendString false name ++ ": "
                     ++ encoding.appendString false text ++ sfx)%string)
          (layout false 0 "" (marshalExport e) "").
Proof.
  intros Hin Hmem.
  destruct (message_layout e m Hin) as (sfx2 & _ & Hincl2).
  destruct (@member_layout false name (marshalMessage m) _ 2 "" sfx2 Hmem)
    as (sfx3 & Hsfx3 & Hincl3).
  exists sfx3. split; [exact Hsfx3|].
  apply Hincl2, Hincl3. cbn [layout]. left. rewrite string_app_assoc. reflexivity.
Qed.

(** The body of the quote of a message is one line of the document, four
    levels deep. *)
Lemma message_quote_body_line (e : jsonExport) (m : jsonMessage) (jq : jsonQuote) :
  In m (jexMessages e) ->
  jmsgQuote m = Some jq ->
  jquoteBody jq <> "" ->
  exists sfx,
    (sfx = "" \/ sfx = ",")
    /\ In (4%nat, (encoding.appendString false "body" ++ ": "
                     ++ encoding.appendString false (jquoteBody jq) ++ sfx)%string)
          (layout false 0 "" (marshalExport e) "").
Proof.
  intros Hin Hq Hne.
  destruct (message_layout e m Hin) as (sfx2 & _ & Hincl2).
  assert (Hmq : member "quote" (marshalMessage m) = Some (marshalQuote jq))
    by (rewrite member_quote, Hq; reflexivity).
  destruct (@member_layout false "quote" (marshalMessage m) _ 2 "" sfx2 Hmq)
    as (sfx3 & _ & Hincl3).
  assert (Hmb : member "body" (marshalQuote jq) = Some (encoding.JString (jquoteBody jq))).
  { rewrite member_quote_body. destruct (String.eqb_spec (jquoteBody jq) "");
      [contradiction|reflexivity]. }
  destruct (@member_layout false "body" (marshalQuote jq) _ 3
              (encoding.appendString false "quote" ++ ": ")%string sfx3 Hmb)
    as (sfx4 & Hsfx4 & Hincl4).
  exists sfx4. split; [exact Hsfx4|].
  apply Hincl2, Hincl3, Hincl4. cbn [layout]. left. rewrite string_app_assoc. reflexivity.
Qed.


Lemma appendString_markup (text1 text2 : string) (b : ascii) :
  markupByte b = true ->
  encoding.appendString false (text1 ++ String b text2)
  = (doubleQuote ++ encoding.appendStringFrom false 0 text1
       ++ String b (encoding.appendStringFrom false 0 text2) ++ doubleQuote)%string.
Proof.
  intros Hb. unfold encoding.appendString.
  assert (Hascii : byteOf b < 128).
  { unfold markupByte in Hb.
    apply orb_prop in Hb. destruct Hb as [Hb|Hb];
      [apply orb_prop in Hb; destruct Hb as [Hb|Hb]|];
      apply Z.eqb_eq in Hb; lia. }
  rewrite (@appendStringFrom_ascii false b text2 Hascii text1 0%nat (Nat.le_0_l _)).
  destruct (escapeByte_markup b Hb) as [-> _].
  rewrite !string_app_assoc. reflexivity.
Qed.

Lemma In_assembleExport (c : Context) (msgs : list Message) (e : jsonExport)
    (i : nat) (msg : Message) :
  assembleExport c msgs = Some e ->
  nth_error msgs i = Some msg ->
  In (convertMessage (selfName c) msg) (jexMessages e).
Proof.
  unfold assembleExport. destruct msgs as [|first rest]; [discriminate|].
  intros H Hi. injection H as <-.
  change (In (convertMessage (selfName c) msg)
             (map (convertMessage (selfName c)) (first :: rest))).
  apply in_map. eapply nth_error_In. exact Hi.
Qed.

Lemma jsonWriteMessages_document (c : Context) (ew : Writer) (msgs : list Message) :
  jsonWriteMessages c ew msgs
  = option_map (afterWrite ew) (option_map renderExport (assembleExport c msgs)).
Proof.
  unfold jsonWriteMessages, afterWrite.
  destruct (assembleExport c msgs) as [e|]; [|reflexivity]. cbn [option_map].
  destruct (ewWrite ew (renderExport e)) as [ew' [err|]]; reflexivity.
Qed.

Lemma assembleExport_SelfRecipient (c1 c2 : Context) (msgs : list Message) :
  SelfRecipient c1 = SelfRecipient c2 ->
  assembleExport c1 msgs = assembleExport c2 msgs.
Proof. intros H. unfold assembleExport, selfName. rewrite H. reflexivity. Qed.

(** C9: serialization of the export model.

    Determinism: [jsonWriteMessages] hands the writer exactly one document,
    the rendering of the model it has assembled, and that document is the
    same for any two runs on the same messages with the same self
    recipient, whatever the writers, the message stores and the recipient
    lookups of the two runs are.

    Two-space nesting: the document is, line for line, the layout of the
    model by nesting level, every line written with two spaces for each
    level of nesting of the element it belongs to and ended by a line feed;
    the text of a line holds no line feed and does not start with a space,
    so that the indentation of a line is exactly twice its nesting level.
    The body of a message without edits is one of these lines, at level 3,
    and the body of its quote is one at level 4.

    No markup escaping: in every text, whatever else it holds, each [<],
    [>] and [&] is written as itself, between the encodings of the text
    before it and of the text after it, where HTML escaping would have
    replaced it; a text of bytes from 0x20 to 0x7f without double quote and
    backslash is written unchanged between double quotes. *)
Theorem serialization_is_deterministic_and_plain :
  (forall (c1 c2 : Context) (ew1 ew2 : Writer) (msgs : list Message),
     SelfRecipient c1 = SelfRecipient c2 ->
     exists doc : option string,
       doc = option_map renderExport (assembleExport c1 msgs)
       /\ jsonWriteMessages c1 ew1 msgs = option_map (afterWrite ew1) doc
       /\ jsonWriteMessages c2 ew2 msgs = option_map (afterWrite ew2) doc)
  /\ (forall e : jsonExport,
        renderExport e
        = unlines (map indentLine (layout false 0 "" (marshalExport e) ""))
        /\ Forall (fun l => lineText (snd l) = true)
                  (layout false 0 "" (marshalExport e) ""))
  /\ (forall (c : Context) (msgs : list Message) (e : jsonExport)
             (i : nat) (msg : Message),
        assembleExport c msgs = Some e ->
        nth_error msgs i = Some msg ->
        msgEdits msg = [] ->
        (Text (msgBody msg) <> "" ->
           exists sfx,
             (sfx = "" \/ sfx = ",")
             /\ In (3%nat, (encoding.appendString false "body" ++ ": "
                              ++ encoding.appendString false (Text (msgBody msg))
                              ++ sfx)%string)
                   (layout false 0 "" (marshalExport e) ""))
        /\ (forall q, msgQuote msg = Some q -> Text (qBody q) <> "" ->
              exists sfx,
                (sfx = "" \/ sfx = ",")
                /\ In (4%nat, (encoding.appendString false "body" ++ ": "
                                 ++ encoding.appendString false (Text (qBody q))
                                 ++ sfx)%string)
                      (layout false 0 "" (marshalExport e) "")))
  /\ (forall (text1 text2 : string) (b : ascii),
        markupByte b = true ->
        encoding.appendString false (text1 ++ String b text2)
        = (doubleQuote ++ encoding.appendStringFrom false 0 text1
             ++ String b (encoding.appendStringFrom false 0 text2)
             ++ doubleQuote)%string
        /\ encoding.escapeByte true b <> String b EmptyString)
  /\ (forall text : string,
        plainText text = true ->
        encoding.appendString false text = (doubleQuote ++ text ++ doubleQuote)%string).
Proof.
  split; [|split; [|split; [|split]]].
  - intros c1 c2 ew1 ew2 msgs Hself.
    exists (option_map renderExport (assembleExport c1 msgs)).
    split; [reflexivity|]. split; [apply jsonWriteMessages_document|].
    rewrite (@assembleExport_SelfRecipient c1 c2 msgs Hself). apply jsonWriteMessages_document.
  - intros e. split; [apply renderExport_layout|].
    apply layout_lineText; [left; reflexivity|reflexivity].
  - intros c msgs e i msg He Hi Hedits.
    pose proof (@In_assembleExport c msgs e i msg He Hi) as Hin.
    pose proof (convertMessage_body_quote (selfName c) msg) as Hbq.
    rewrite Hedits in Hbq. injection Hbq as Hbody Hquote.
    split.
    + intros Hne.
      apply (@message_text_line e (convertMessage (selfName c) msg) "body"
               (Text (msgBody msg)) Hin).
      rewrite member_body, Hbody.
      destruct (String.eqb_spec (Text (msgBody msg)) ""); [contradiction|reflexivity].
    + intros q Hq Hne. rewrite Hq in Hquote. cbn [convertQuote] in Hquote.
      rewrite <- (jquoteBody_convertQuoteOf q).
      apply (@message_quote_body_line e (convertMessage (selfName c) msg)
               (convertQuoteOf q) Hin Hquote).
      rewrite jquoteBody_convertQuoteOf. exact Hne.
  - intros text1 text2 b Hb. split; [apply appendString_markup, Hb|].
    apply (escapeByte_markup b Hb).
  - intros text Ht. unfold encoding.appendString.
    rewrite (appendStringFrom_plainText _ Ht). reflexivity.
Qed.

(** ** Further properties of the quote resolver *)

Lemma quoteAttachments_filter (jatts : list quoteAttachmentJSON) :
  quoteAttachments jatts
  = map (fun jatt => mkQuoteAttachment (jaFileName jatt) (jaContentType jatt))
        (filter (fun jatt => negb (String.eqb (jaContentType jatt) LongTextType)) jatts).
Proof.
  induction jatts as [|jatt rest IH]; [reflexivity|].
  cbn [quoteAttachments filter].
  destruct (String.eqb (jaContentType jatt) LongTextType); cbn [negb map];
    rewrite IH; reflexivity.
Qed.

(** X1: the attachments of a resolved quote are the attachments of the raw
    quote whose content type is not the long-message type, in their order
    and with file name and content type unchanged; none of them has the
    long-message type, and there are never more of them than the raw quote
    has. *)
Theorem quote_attachments_drop_long_text
    (c : Context) (j : quoteJSON) (depth : Z) (q : Quote) :
  resolves c (Some j) depth (Ok (Some q)) ->
  qAttachments q
  = map (fun jatt => mkQuoteAttachment (jaFileName jatt) (jaContentType jatt))
        (filter (fun jatt => negb (String.eqb (jaContentType jatt) LongTextType))
                (jqAttachments j))
  /\ Forall (fun att => qaContentType att <> LongTextType) (qAttachments q)
  /\ (List.length (qAttachments q) <= List.length (jqAttachments j))%nat.
Proof.
  intros [fuel H]. apply resolve_inv in H.
  destruct H as (_ & _ & _ & _ & _ & Hatts & _).
  rewrite Hatts, quoteAttachments_filter. split; [reflexivity|split].
  - apply Forall_map, Forall_forall. intros jatt Hin.
    apply filter_In in Hin. destruct Hin as [_ Hne]. cbn [qaContentType].
    destruct (String.eqb_spec (jaContentType jatt) LongTextType); [discriminate Hne|assumption].
  - rewrite length_map. apply filter_length_le.
Qed.

(** X2: the author of a resolved quote is looked up by the account
    identifier whenever that field is not empty, whatever the legacy
    identifier and the phone number hold; by the legacy identifier when only
    the account identifier is empty; and by the phone number only when both
    identifiers are empty. *)
Theorem quote_author_field_priority
    (c : Context) (j : quoteJSON) (depth : Z) (q : Quote) :
  resolves c (Some j) depth (Ok (Some q)) ->
  (jqAuthorACI j <> "" ->
     recipientFromACI c (jqAuthorACI j) = Ok (qRecipient q))
  /\ (jqAuthorACI j = "" -> jqAuthorUUID j <> "" ->
        recipientFromACI c (jqAuthorUUID j) = Ok (qRecipient q))
  /\ (jqAuthorACI j = "" -> jqAuthorUUID j = "" ->
        jqAuthor j <> "" /\ recipientFromPhone c (jqAuthor j) = Ok (qRecipient q)).
Proof.
  intros [fuel H]. apply resolve_inv in H.
  destruct H as (_ & _ & Hau & _). unfold quoteAuthor in Hau.
  destruct (String.eqb_spec (jqAuthorACI j) "") as [Eaci|Eaci]; cbn [negb] in Hau.
  - destruct (String.eqb_spec (jqAuthorUUID j) "") as [Euuid|Euuid]; cbn [negb] in Hau.
    + destruct (String.eqb_spec (jqAuthor j) "") as [Eph|Eph]; cbn [negb] in Hau;
        [discriminate Hau|].
      split; [|split]; intros; try contradiction. split; assumption.
    + split; [|split]; intros; try contradiction. assumption.
  - split; [|split]; intros; try contradiction. assumption.
Qed.

(** X3: a failed resolution reports the ID parse error, the error of the
    author (the lookup's error or the condition [quote without author]) or
    the error of the mention parser, and nothing else: an error of the store
    is never the error of a resolution. *)
Theorem resolution_error_causes (c : Context) (j : quoteJSON) (depth : Z) (e : error) :
  resolves c (Some j) depth (Err e) ->
  depth < maxDepth
  /\ ((exists num cause, jqID j = Some num /\ json.Int64 num = inl cause
                         /\ e = ErrParseQuoteID cause)
      \/ quoteAuthor c j = Err e
      \/ parseMentionJSON c (jqMentions j) = Err e).
Proof.
  intros [fuel H]. destruct fuel as [|fuel]; [discriminate H|].
  destruct (Z_lt_le_dec depth maxDepth) as [Hd|Hd].
  - split; [exact Hd|].
    rewrite parseQuoteJSONWithDepthFuel_step in H by exact Hd.
    unfold quoteTimeSent in H.
    destruct (jqID j) as [num|] eqn:Hid.
    + destruct (json.Int64 num) as [cause|v] eqn:Hnum.
      * left. exists num, cause. injection H as <-.
        split; [reflexivity|split; [exact Hnum|reflexivity]].
      * destruct (quoteAuthor c j) as [rpt|e']; [|right; left; congruence].
        destruct (parseMentionJSON c (jqMentions j)) as [mentions|e'];
          [|right; right; congruence].
        destruct (v >? 0); [|discriminate H].
        destruct (findQuoteOfMessageFuel fuel c v (depth + 1)); discriminate H.
    + destruct (quoteAuthor c j) as [rpt|e']; [|right; left; congruence].
      destruct (parseMentionJSON c (jqMentions j)) as [mentions|e'];
        [|right; right; congruence].
      discriminate H.
  - rewrite parseQuoteJSONWithDepthFuel_maxDepth in H by exact Hd. discriminate H.
Qed.

Lemma quoteAuthor_ext (c1 c2 : Context) (j : quoteJSON) :
  recipientFromACI c1 = recipientFromACI c2 ->
  recipientFromPhone c1 = recipientFromPhone c2 ->
  quoteAuthor c1 j = quoteAuthor c2 j.
Proof. intros Ha Hp. unfold quoteAuthor. rewrite Ha, Hp. reflexivity. Qed.

(** Two results agree except for the nested link of the quote. *)
Definition sameButLink (r1 r2 : result (option Quote)) : Prop :=
  match r1, r2 with
  | Err e1, Err e2 => e1 = e2
  | Ok None, Ok None => True
  | Ok (Some q1), Ok (Some q2) =>
      qRecipient q1 = qRecipient q2 /\ qTimeSent q1 = qTimeSent q2
      /\ qBody q1 = qBody q2 /\ qAttachments q1 = qAttachments q2
  | _, _ => False
  end.

(** X4: whether the resolution of a quote fails, with which error, and the
    author, timestamp, body and attachments of the quote it returns do not
    depend on the message store: two contexts with the same recipient
    lookups and mention parser give results that differ at most in the
    nested link. *)
Theorem resolution_depends_on_store_only_for_link
    (c1 c2 : Context) (j : quoteJSON) (depth : Z) (r1 : result (option Quote)) :
  recipientFromACI c1 = recipientFromACI c2 ->
  recipientFromPhone c1 = recipientFromPhone c2 ->
  parseMentionJSON c1 = parseMentionJSON c2 ->
  resolves c1 (Some j) depth r1 ->
  exists r2, resolves c2 (Some j) depth r2 /\ sameButLink r1 r2.
Proof.
  intros Ha Hp Hm [fuel H]. destruct fuel as [|fuel]; [discriminate H|].
  destruct (Z_lt_le_dec depth maxDepth) as [Hd|Hd].
  - rewrite parseQuoteJSONWithDepthFuel_step in H by exact Hd.
    destruct (quoteTimeSent j) as [timeSent|e] eqn:Hts.
    + destruct (quoteAuthor c1 j) as [rpt|e] eqn:Hau.
      * destruct (parseMentionJSON c1 (jqMentions j)) as [mentions|e] eqn:Hme.
        -- rewrite (@quoteAuthor_ext c1 c2 j Ha Hp) in Hau. rewrite Hm in Hme.
           destruct (resolve_success c2 j Hd Hts Hau Hme) as (link & Hres & _).
           eexists. split; [exists (fuelFor depth); apply Hres; apply Nat.le_refl|].
           destruct (timeSent >? 0).
           ++ destruct (findQuoteOfMessageFuel fuel c1 timeSent (depth + 1));
                [|discriminate H].
              injection H as <-. cbn. repeat split; reflexivity.
           ++ injection H as <-. cbn. repeat split; reflexivity.
        -- injection H as <-. exists (Err e). split; [|reflexivity].
           exists 1%nat. rewrite parseQuoteJSONWithDepthFuel_step by exact Hd.
           rewrite Hts, <- (@quoteAuthor_ext c1 c2 j Ha Hp), Hau, <- Hm, Hme. reflexivity.
      * injection H as <-. exists (Err e). split; [|reflexivity].
        exists 1%nat. rewrite parseQuoteJSONWithDepthFuel_step by exact Hd.
        rewrite Hts, <- (@quoteAuthor_ext c1 c2 j Ha Hp), Hau. reflexivity.
    + injection H as <-. exists (Err e). split; [|reflexivity].
      exists 1%nat. rewrite parseQuoteJSONWithDepthFuel_step by exact Hd.
      rewrite Hts. reflexivity.
  - rewrite parseQuoteJSONWithDepthFuel_maxDepth in H by exact Hd. injection H as <-.
    exists (Ok None). split; [|exact I].
    exists 1%nat. apply parseQuoteJSONWithDepthFuel_maxDepth. exact Hd.
Qed.

(** X5: a nested quote is always the resolution, one level deeper, of the
    quote payload of the row stored at the timestamp of the quote that holds
    it, and that timestamp is positive.  A quote whose timestamp is zero or
    negative (the sentinel -1 included) therefore has no nested quote,
    whatever the store holds. *)
Theorem nested_quote_comes_from_store
    (c : Context) (j : quoteJSON) (depth : Z) (q q' : Quote) :
  resolves c (Some j) depth (Ok (Some q)) ->
  QuotedQuote q = Some q' ->
  0 < qTimeSent q
  /\ dbPrepareErr (db c) = None
  /\ dbBindErr (db c) (qTimeSent q) = None
  /\ exists (payload : string) (j' : quoteJSON),
       stepRow (dbMessages (db c)) (qTimeSent q) = Some payload
       /\ payload <> ""
       /\ unmarshalMessageQuote payload = Some (Some j')
       /\ resolves c (Some j') (depth + 1) (Ok (Some q'))
       /\ Text (qBody q') = jqText j'.
Proof.
  intros [fuel H] Hq'. destruct fuel as [|fuel]; [discriminate H|].
  destruct (Z_lt_le_dec depth maxDepth) as [Hd|Hd].
  - rewrite parseQuoteJSONWithDepthFuel_step in H by exact Hd.
    destruct (quoteTimeSent j) as [timeSent|e]; [|discriminate H].
    destruct (quoteAuthor c j) as [rpt|e]; [|discriminate H].
    destruct (parseMentionJSON c (jqMentions j)) as [mentions|e]; [|discriminate H].
    destruct (timeSent >? 0) eqn:Hpos.
    + rewrite findQuoteOfMessageFuel_cases in H.
      destruct (dbPrepareErr (db c));
        [injection H as <-; discriminate Hq'|].
      destruct (dbBindErr (db c) timeSent) eqn:Hbind;
        [injection H as <-; discriminate Hq'|].
      destruct (stepRow (dbMessages (db c)) timeSent) as [payload|] eqn:Hrow;
        [|injection H as <-; discriminate Hq'].
      destruct (String.eqb_spec payload "") as [Hemp|Hemp];
        [injection H as <-; discriminate Hq'|].
      destruct (unmarshalMessageQuote payload) as [[j'|]|] eqn:Hun;
        try (injection H as <-; discriminate Hq').
      destruct (parseQuoteJSONWithDepthFuel fuel c (Some j') (depth + 1)) as [r|] eqn:Hr;
        [|discriminate H].
      injection H as <-. cbn [QuotedQuote qTimeSent] in Hq' |- *.
      destruct r as [[q''|]|e]; try discriminate Hq'. injection Hq' as ->.
      apply Z.gtb_lt in Hpos.
      split; [lia|]. split; [reflexivity|]. split; [exact Hbind|].
      exists payload, j'. repeat split; try assumption.
      * exists fuel. exact Hr.
      * apply resolve_inv in Hr. destruct Hr as (_ & _ & _ & Ht & _). exact Ht.
    + injection H as <-. discriminate Hq'.
  - rewrite parseQuoteJSONWithDepthFuel_maxDepth in H by exact Hd. discriminate H.
Qed.

(** [q1] is [q2] cut after some link: the quotes agree field by field along
    the chain of [q1]. *)
Fixpoint isChainPrefix (q1 q2 : Quote) : Prop :=
  match q1, q2 with
  | mkQuote rpt1 timeSent1 body1 atts1 quoted1,
    mkQuote rpt2 timeSent2 body2 atts2 quoted2 =>
      rpt1 = rpt2 /\ timeSent1 = timeSent2 /\ body1 = body2 /\ atts1 = atts2
      /\ match quoted1, quoted2 with
         | None, _ => True
         | Some q1', Some q2' => isChainPrefix q1' q2'
         | Some _, None => False
         end
  end.

Lemma parseQuoteJSONWithDepthFuel_prefix (fuel : nat) :
  forall (c : Context) (j : quoteJSON) (depth depth' : Z) (q1 : Quote),
    depth' <= depth ->
    parseQuoteJSONWithDepthFuel fuel c (Some j) depth = Some (Ok (Some q1)) ->
    exists q2,
      (forall fuel', (fuelFor depth' <= fuel')%nat ->
         parseQuoteJSONWithDepthFuel fuel' c (Some j) depth' = Some (Ok (Some q2)))
      /\ isChainPrefix q1 q2.
Proof.
  induction fuel as [|fuel IH]; intros c j depth depth' q1 Hle H; [discriminate H|].
  destruct (Z_lt_le_dec depth maxDepth) as [Hd|Hd];
    [|rewrite parseQuoteJSONWithDepthFuel_maxDepth in H by exact Hd; discriminate H].
  assert (Hd' : depth' < maxDepth) by lia.
  rewrite parseQuoteJSONWithDepthFuel_step in H by exact Hd.
  destruct (quoteTimeSent j) as [timeSent|e] eqn:Hts; [|discriminate H].
  destruct (quoteAuthor c j) as [rpt|e] eqn:Hau; [|discriminate H].
  destruct (parseMentionJSON c (jqMentions j)) as [mentions|e] eqn:Hme; [|discriminate H].
  destruct (resolve_success c j Hd' Hts Hau Hme) as (link2 & Hres & Hnonpos & Hpos).
  eexists. split; [exact Hres|].
  destruct (timeSent >? 0) eqn:Ets.
  - apply Z.gtb_lt in Ets. destruct (Hpos Ets) as (r2 & -> & Hfind2).
    destruct (findQuoteOfMessageFuel fuel c timeSent (depth + 1)) as [r1|] eqn:Hfind1;
      [|discriminate H].
    injection H as <-. cbn [isChainPrefix]. repeat split.
    destruct r1 as [[q1'|]|e]; try exact I.
    specialize (Hfind2 _ (Nat.le_refl _)).
    rewrite findQuoteOfMessageFuel_cases in Hfind1, Hfind2.
    destruct (dbPrepareErr (db c)); [discriminate Hfind1|].
    destruct (dbBindErr (db c) timeSent); [discriminate Hfind1|].
    destruct (stepRow (dbMessages (db c)) timeSent) as [payload|]; [|discriminate Hfind1].
    destruct (String.eqb payload ""); [discriminate Hfind1|].
    destruct (unmarshalMessageQuote payload) as [[j'|]|]; try discriminate Hfind1.
    destruct (IH c j' (depth + 1) (depth' + 1) q1' ltac:(lia) Hfind1) as (q2' & Hq2' & Hpre).
    rewrite (Hq2' _ (Nat.le_refl _)) in Hfind2. injection Hfind2 as <-.
    exact Hpre.
  - injection H as <-. cbn [isChainPrefix]. repeat split.
Qed.

(** X15: the depth counter only decides where a chain is cut.  A quote
    resolved at some depth is, link by link, the beginning of the quote that
    the same raw quote resolves to at any smaller depth: the same authors,
    timestamps, bodies and attachments, with possibly fewer nested links. *)
Theorem depth_only_truncates_the_chain
    (c : Context) (j : quoteJSON) (depth depth' : Z) (q1 : Quote) :
  depth' <= depth ->
  resolves c (Some j) depth (Ok (Some q1)) ->
  exists q2, resolves c (Some j) depth' (Ok (Some q2)) /\ isChainPrefix q1 q2.
Proof.
  intros Hle [fuel H].
  destruct (parseQuoteJSONWithDepthFuel_prefix _ _ _ Hle H) as (q2 & Hq2 & Hpre).
  exists q2. split; [|exact Hpre].
  exists (fuelFor depth'). apply Hq2, Nat.le_refl.
Qed.

(** ** Further properties of the exporter *)

Lemma jquoteFields_convertQuoteOf (q : Quote) :
  jquoteFrom (convertQuoteOf q) = DetailedDisplayName (qRecipient q)
  /\ jquoteSent (convertQuoteOf q)
     = (if qTimeSent q >? 0 then formatTime (qTimeSent q) else "")
  /\ jquoteAttachments (convertQuoteOf q)
     = map (fun att => mkJsonAttachment (qaFileName att) (qaContentType att) 0)
           (qAttachments q).
Proof. destruct q; repeat split. Qed.

Lemma member_quote_sent (q : jsonQuote) :
  member "sent" (marshalQuote q) =
  if String.eqb (jquoteSent q) "" then None
  else Some (encoding.JString (jquoteSent q)).
Proof.
  destruct q as [from sent body atts quoted].
  unfold member, marshalQuote. lookup_members. cbn [jquoteSent].
  destruct (String.eqb sent ""); reflexivity.
Qed.

(** X6: the exported form of a resolved quote shows the raw quote it came
    from: its body is the raw text, its author label is the display name of
    the recipient that the author lookup returned, its attachments are the
    raw attachments other than long-message ones, each with size 0, and its
    sent time is the formatted timestamp of the raw ID.  When the raw ID is
    missing, or parses to zero or a negative number, no sent member is
    written. *)
Theorem exported_quote_reflects_raw_quote
    (c : Context) (j : quoteJSON) (depth : Z) (q : Quote) :
  resolves c (Some j) depth (Ok (Some q)) ->
  let jq := convertQuoteOf q in
  jquoteBody jq = jqText j
  /\ quoteAuthor c j = Ok (qRecipient q)
  /\ jquoteFrom jq = DetailedDisplayName (qRecipient q)
  /\ jquoteAttachments jq
     = map (fun jatt => mkJsonAttachment (jaFileName jatt) (jaContentType jatt) 0)
           (filter (fun jatt => negb (String.eqb (jaContentType jatt) LongTextType))
                   (jqAttachments j))
  /\ (forall num v, jqID j = Some num -> json.Int64 num = inr v ->
        jquoteSent jq = formatTime v)
  /\ (jqID j = None -> member "sent" (marshalQuote jq) = None)
  /\ (qTimeSent q <= 0 -> member "sent" (marshalQuote jq) = None).
Proof.
  intros [fuel H] jq. subst jq. apply resolve_inv in H.
  destruct H as (_ & Hts & Hau & Htext & _ & Hatts & _).
  destruct (jquoteFields_convertQuoteOf q) as (Hfrom & Hsent & Hja).
  assert (Hnonpos : qTimeSent q <= 0 -> member "sent" (marshalQuote (convertQuoteOf q)) = None).
  { intros Hle. rewrite member_quote_sent, Hsent.
    destruct (qTimeSent q >? 0) eqn:E; [apply Z.gtb_lt in E; lia|reflexivity]. }
  repeat split.
  - rewrite jquoteBody_convertQuoteOf. exact Htext.
  - exact Hau.
  - exact Hfrom.
  - rewrite Hja, Hatts, quoteAttachments_filter, map_map. reflexivity.
  - intros num v Hid Hv. rewrite Hsent.
    unfold quoteTimeSent in Hts. rewrite Hid, Hv in Hts. injection Hts as <-.
    unfold formatTime.
    destruct (v >? 0) eqn:E; [reflexivity|].
    rewrite Z.gtb_ltb in E. apply Z.ltb_ge in E.
    destruct (Z.leb_spec v 0); [reflexivity|lia].
  - intros Hid. apply Hnonpos. unfold quoteTimeSent in Hts. rewrite Hid in Hts.
    injection Hts as <-. lia.
  - exact Hnonpos.
Qed.

Lemma chainFroms_length (q : Quote) :
  List.length (chainFroms (convertQuoteOf q)) = chainLength q.
Proof.
  rewrite chainFroms_convertQuoteOf, length_map. revert q.
  fix IH 1. intros [rpt timeSent body atts [q'|]].
  - cbn. f_equal. apply IH.
  - reflexivity.
Qed.

(** X7: converting a quote for export keeps every link of its chain, so that
    the quote that [parseQuoteJSON] returns is exported with at most 10
    nested levels, itself included. *)
Theorem exported_quote_depth_bounded (c : Context) (jqte : option quoteJSON) (q : Quote) :
  resolves c jqte 0 (Ok (Some q)) ->
  List.length (chainFroms (convertQuoteOf q)) = chainLength q
  /\ (List.length (chainFroms (convertQuoteOf q)) <= 10)%nat.
Proof.
  intros [fuel H]. rewrite chainFroms_length. split; [reflexivity|].
  pose proof (parseQuoteJSONWithDepthFuel_chain _ _ _ _ H) as Hc.
  unfold maxDepth in Hc. lia.
Qed.

Lemma member_attachment_size (a : jsonAttachment) :
  member "size" (marshalAttachment a) = Some (encoding.JInt (jattSize a))
  /\ member "content_type" (marshalAttachment a)
     = Some (encoding.JString (jattContentType a)).
Proof.
  unfold member, marshalAttachment. lookup_members.
  destruct (String.eqb (jattFileName a) ""); split; reflexivity.
Qed.

(** X8: every attachment of an exported quote is written with the size 0,
    as a member that is present, whatever attachment the quoted message had;
    the attachments of a message itself are written with their own size,
    zero included. *)
Theorem quote_attachments_are_written_with_size_zero (q : Quote) (atts : list Attachment) :
  Forall (fun a => jattSize a = 0
                   /\ member "size" (marshalAttachment a) = Some (encoding.JInt 0))
         (jquoteAttachments (convertQuoteOf q))
  /\ List.length (jquoteAttachments (convertQuoteOf q)) = List.length (qAttachments q)
  /\ map (fun a => member "size" (marshalAttachment a)) (convertAttachments atts)
     = map (fun att => Some (encoding.JInt (attSize att))) atts.
Proof.
  destruct (jquoteFields_convertQuoteOf q) as (_ & _ & ->).
  split; [|split].
  - apply Forall_map, Forall_forall. intros att _.
    split; [reflexivity|]. apply member_attachment_size.
  - apply length_map.
  - unfold convertAttachments. destruct atts as [|att rest]; [reflexivity|].
    rewrite map_map. apply map_ext. intros a. apply member_attachment_size.
Qed.

Lemma convertMessage_sent (self : string) (msg : Message) :
  jmsgSent (convertMessage self msg)
  = (if negb (msgTimeSent msg =? 0) then formatTime (msgTimeSent msg) else "")
  /\ jmsgSentUnix (convertMessage self msg)
     = (if negb (msgTimeSent msg =? 0) then msgTimeSent msg else 0).
Proof.
  unfold convertMessage.
  destruct (negb (msgTimeSent msg =? 0));
    destruct (msgEdits msg) as [|edit rest]; split; reflexivity.
Qed.

Lemma convertMessage_from_type (self : string) (msg : Message) :
  jmsgFrom (convertMessage self msg)
  = (if IsOutgoing msg then self
     else match msgSource msg with
          | Some _ => DetailedDisplayName (msgSource msg)
          | None => ""
          end)
  /\ jmsgType (convertMessage self msg) = msgType msg.
Proof.
  unfold convertMessage.
  destruct (if negb (msgTimeSent msg =? 0) then _ else _) as [sent sentUnix].
  destruct (msgEdits msg) as [|edit rest]; split; reflexivity.
Qed.

Lemma convertMessage_lists (self : string) (msg : Message) :
  jmsgAttachments (convertMessage self msg) = convertAttachments (msgAttachments msg)
  /\ jmsgReactions (convertMessage self msg)
     = map (fun rct => mkJsonReaction (rctEmoji rct)
                         (DetailedDisplayName (rctRecipient rct)))
           (msgReactions msg).
Proof.
  unfold convertMessage.
  destruct (if negb (msgTimeSent msg =? 0) then _ else _) as [sent sentUnix].
  destruct (msgEdits msg) as [|edit rest]; split; reflexivity.
Qed.

Lemma member_sent (m : jsonMessage) :
  member "sent" (marshalMessage m)
  = (if String.eqb (jmsgSent m) "" then None else Some (encoding.JString (jmsgSent m)))
  /\ member "sent_unix" (marshalMessage m)
     = (if jmsgSentUnix m =? 0 then None else Some (encoding.JInt (jmsgSentUnix m))).
Proof.
  unfold member, marshalMessage. lookup_members.
  destruct (String.eqb (jmsgSent m) ""); destruct (jmsgSentUnix m =? 0);
    split; reflexivity.
Qed.

Lemma member_from_type (m : jsonMessage) :
  member "from" (marshalMessage m) = Some (encoding.JString (jmsgFrom m))
  /\ member "type" (marshalMessage m) = Some (encoding.JString (jmsgType m)).
Proof. unfold member, marshalMessage. lookup_members. split; reflexivity. Qed.

(** X9: the sent time of a message.  A timestamp of zero writes neither the
    sent nor the sent_unix member.  A positive timestamp writes sent_unix
    with that number and gives the record its formatted time.  A negative
    timestamp writes sent_unix with the negative number but no sent member,
    because [formatTime] is empty for it. *)
Theorem message_sent_members (self : string) (msg : Message) :
  let jmsg := convertMessage self msg in
  (msgTimeSent msg = 0 ->
     member "sent" (marshalMessage jmsg) = None
     /\ member "sent_unix" (marshalMessage jmsg) = None)
  /\ (0 < msgTimeSent msg ->
        jmsgSent jmsg = timeFormat (msgTimeSent msg)
        /\ member "sent_unix" (marshalMessage jmsg)
           = Some (encoding.JInt (msgTimeSent msg)))
  /\ (msgTimeSent msg < 0 ->
        member "sent" (marshalMessage jmsg) = None
        /\ member "sent_unix" (marshalMessage jmsg)
           = Some (encoding.JInt (msgTimeSent msg))).
Proof.
  intros jmsg. subst jmsg.
  destruct (member_sent (convertMessage self msg)) as [-> ->].
  destruct (convertMessage_sent self msg) as [-> ->].
  unfold formatTime. split; [|split].
  - intros ->. split; reflexivity.
  - intros Hpos.
    destruct (Z.eqb_spec (msgTimeSent msg) 0) as [E|E]; [lia|]. cbn [negb].
    destruct (Z.leb_spec (msgTimeSent msg) 0); [lia|].
    destruct (Z.eqb_spec (msgTimeSent msg) 0); [lia|]. split; reflexivity.
  - intros Hneg.
    destruct (Z.eqb_spec (msgTimeSent msg) 0) as [E|E]; [lia|]. cbn [negb].
    destruct (Z.leb_spec (msgTimeSent msg) 0); [|lia].
    destruct (Z.eqb_spec (msgTimeSent msg) 0); [lia|]. split; reflexivity.
Qed.

Lemma nth_error_assembleExport (c : Context) (msgs : list Message) (e : jsonExport) :
  assembleExport c msgs = Some e ->
  forall (i : nat) (msg : Message),
    nth_error msgs i = Some msg ->
    nth_error (jexMessages e) i = Some (convertMessage (selfName c) msg).
Proof.
  unfold assembleExport. destruct msgs as [|first rest]; [discriminate|].
  intros H. injection H as <-. intros i msg Hi.
  exact (map_nth_error (convertMessage (selfName c)) i (first :: rest) Hi).
Qed.

(** X10: the sender label.  The from and type members of a record are always
    written, also when they are empty.  An outgoing message is labelled with
    the display name of the self recipient, and with the fixed label [You]
    whenever the self recipient cannot be found or its lookup fails; a
    message that is not outgoing and has no source gets the empty label. *)
Theorem sender_label (c : Context) (msgs : list Message) (e : jsonExport)
    (i : nat) (msg : Message) :
  assembleExport c msgs = Some e ->
  nth_error msgs i = Some msg ->
  exists jmsg,
    nth_error (jexMessages e) i = Some jmsg
    /\ member "from" (marshalMessage jmsg) = Some (encoding.JString (jmsgFrom jmsg))
    /\ member "type" (marshalMessage jmsg) = Some (encoding.JString (msgType msg))
    /\ (IsOutgoing msg = true ->
          (forall selfRpt, SelfRecipient c = Ok (Some selfRpt) ->
             jmsgFrom jmsg = DetailedDisplayName (Some selfRpt))
          /\ (SelfRecipient c = Ok None -> jmsgFrom jmsg = "You")
          /\ (forall err, SelfRecipient c = Err err -> jmsgFrom jmsg = "You"))
    /\ (IsOutgoing msg = false ->
          (msgSource msg = None -> jmsgFrom jmsg = "")
          /\ (msgSource msg <> None ->
                jmsgFrom jmsg = DetailedDisplayName (msgSource msg))).
Proof.
  intros He Hi. exists (convertMessage (selfName c) msg).
  split; [eapply nth_error_assembleExport; eassumption|].
  destruct (member_from_type (convertMessage (selfName c) msg)) as [-> ->].
  destruct (convertMessage_from_type (selfName c) msg) as [-> ->].
  split; [reflexivity|]. split; [reflexivity|]. split.
  - intros ->. unfold selfName. repeat split.
    + intros selfRpt ->. reflexivity.
    + intros ->. reflexivity.
    + intros err ->. reflexivity.
  - intros ->. split.
    + intros ->. reflexivity.
    + intros Hsrc. destruct (msgSource msg); [reflexivity|congruence].
Qed.

Lemma member_lists (m : jsonMessage) :
  member "attachments" (marshalMessage m)
  = match jmsgAttachments m with
    | [] => None
    | _ => Some (encoding.JArray (map marshalAttachment (jmsgAttachments m)))
    end
  /\ member "reactions" (marshalMessage m)
     = match jmsgReactions m with
       | [] => None
       | _ => Some (encoding.JArray (map marshalReaction (jmsgReactions m)))
       end
  /\ member "edits" (marshalMessage m)
     = match jmsgEdits m with
       | [] => None
       | _ => Some (encoding.JArray (map marshalEdit (jmsgEdits m)))
       end
  /\ member "group_changes" (marshalMessage m)
     = match jmsgGroupV2Change m with
       | [] => None
       | _ => Some (encoding.JArray (map marshalGroupV2Change (jmsgGroupV2Change m)))
       end.
Proof.
  unfold member, marshalMessage. repeat split; lookup_members.
  - destruct (jmsgAttachments m); reflexivity.
  - destruct (jmsgReactions m); reflexivity.
  - destruct (jmsgEdits m); reflexivity.
  - destruct (jmsgGroupV2Change m); reflexivity.
Qed.

(** A member of a record is the array of [n] items, and is left out when
    [n] is zero. *)
Definition writtenAsArrayOf (v : option encoding.value) (n : nat) : Prop :=
  match n with
  | O => v = None
  | S _ => exists items, v = Some (encoding.JArray items) /\ List.length items = n
  end.

Lemma writtenAsArrayOf_map (A : Type) (f : A -> encoding.value) (l : list A) (n : nat) :
  List.length l = n ->
  writtenAsArrayOf match l with
                   | [] => None
                   | _ => Some (encoding.JArray (map f l))
                   end n.
Proof.
  intros <-. destruct l as [|x l]; [reflexivity|].
  exists (map f (x :: l)). split; [reflexivity|apply length_map].
Qed.

(** X11: the attachments, reactions, edits and group changes of a message
    are each written as an array with one item per element of the message's
    list, and a list that is empty is left out of the record instead of
    being written as an empty array. *)
Theorem message_lists_are_arrays_or_omitted (self : string) (msg : Message) :
  let record := marshalMessage (convertMessage self msg) in
  writtenAsArrayOf (member "attachments" record) (List.length (msgAttachments msg))
  /\ writtenAsArrayOf (member "reactions" record) (List.length (msgReactions msg))
  /\ writtenAsArrayOf (member "edits" record) (List.length (msgEdits msg))
  /\ writtenAsArrayOf (member "group_changes" record)
       (List.length (msgGroupV2Change msg)).
Proof.
  intros record. subst record.
  destruct (member_lists (convertMessage self msg)) as (-> & -> & -> & ->).
  destruct (convertMessage_lists self msg) as [-> ->].
  rewrite convertMessage_edits, convertMessage_groupChanges.
  repeat split; apply writtenAsArrayOf_map.
  - unfold convertAttachments. destruct (msgAttachments msg); [reflexivity|apply length_map].
  - apply length_map.
  - apply convertEditsFrom_length.
  - apply length_map.
Qed.

Lemma assembleExport_cons (c : Context) (first : Message) (rest : list Message) :
  assembleExport c (first :: rest)
  = Some (mkJsonExport (DetailedDisplayName (msgConversation first))
                       (map (convertMessage (selfName c)) (first :: rest))).
Proof. reflexivity. Qed.

(** X12: [jsonWriteMessages] panics exactly on an empty message list.  On a
    list that is not empty it writes one document whose conversation name is
    the display name of the conversation of the first message (the other
    messages are not consulted) and which holds one record per message, in
    order and with the type of each message.  The error it returns is the
    error of the write when the write fails, and the writer's own error
    state otherwise. *)
Theorem export_has_one_record_per_message
    (c : Context) (ew : Writer) (msgs : list Message) :
  (jsonWriteMessages c ew msgs = None <-> msgs = [])
  /\ (forall first rest, msgs = first :: rest ->
        exists e,
          assembleExport c msgs = Some e
          /\ jexConversation e = DetailedDisplayName (msgConversation first)
          /\ List.length (jexMessages e) = List.length msgs
          /\ map jmsgType (jexMessages e) = map msgType msgs
          /\ (forall ew' err, ewWrite ew (renderExport e) = (ew', Some err) ->
                jsonWriteMessages c ew msgs = Some (ew', Some err))
          /\ (forall ew', ewWrite ew (renderExport e) = (ew', None) ->
                jsonWriteMessages c ew msgs = Some (ew', ewErr ew'))).
Proof.
  split.
  - unfold jsonWriteMessages. destruct msgs as [|first rest].
    + split; reflexivity.
    + rewrite assembleExport_cons.
      destruct (ewWrite ew _) as [ew' [err|]]; split; intros H; discriminate H.
  - intros first rest ->. eexists. split; [apply assembleExport_cons|].
    cbn [jexConversation jexMessages]. split; [reflexivity|].
    split; [apply length_map|]. split.
    + rewrite map_map. apply map_ext. intros msg.
      apply (convertMessage_from_type (selfName c) msg).
    + unfold jsonWriteMessages. rewrite assembleExport_cons. split.
      * intros ew' err ->. reflexivity.
      * intros ew' ->. reflexivity.
Qed.

(** The labels of the table of [formatGroupV2ChangeAction]. *)
Definition groupV2ChangeLabels : list string :=
  ["Member added"; "Member removed"; "Member joined from invite";
   "Member joined via link"; "Invitations sent"; "Requested to join";
   "Title changed"; "Description changed"; "Avatar changed";
   "Group settings changed"; "Announcements only mode changed";
   "Member access changed"; "Member privilege changed"].

Lemma formatGroupV2ChangeAction_cases (actionType : string) :
  formatGroupV2ChangeAction actionType = actionType
  \/ In (formatGroupV2ChangeAction actionType) groupV2ChangeLabels.
Proof.
  unfold formatGroupV2ChangeAction.
  repeat match goal with
         | |- context [String.eqb actionType ?code] =>
             destruct (String.eqb actionType code);
             [right; unfold groupV2ChangeLabels; cbn [In]; tauto|]
         end.
  left. reflexivity.
Qed.

Lemma formatGroupV2ChangeAction_labels :
  Forall (fun label => formatGroupV2ChangeAction label = label /\ label <> "")
         groupV2ChangeLabels.
Proof. repeat constructor; discriminate. Qed.

(** X13: the label of a group change.  An action code is replaced by one of
    the thirteen labels of the table or passes through unchanged, the label
    is empty only when the code is empty, and a label is never itself taken
    for a code: formatting a second time changes nothing. *)
Theorem group_change_action_label (actionType : string) :
  (formatGroupV2ChangeAction actionType = actionType
   \/ In (formatGroupV2ChangeAction actionType) groupV2ChangeLabels)
  /\ (formatGroupV2ChangeAction actionType = "" <-> actionType = "")
  /\ formatGroupV2ChangeAction (formatGroupV2ChangeAction actionType)
     = formatGroupV2ChangeAction actionType.
Proof.
  pose proof formatGroupV2ChangeAction_labels as Hlabels.
  rewrite Forall_forall in Hlabels.
  destruct (formatGroupV2ChangeAction_cases actionType) as [Hsame|Hin].
  - split; [left; exact Hsame|]. rewrite !Hsame. split; [tauto|reflexivity].
  - destruct (Hlabels _ Hin) as [Hfix Hne].
    split; [right; exact Hin|]. split; [|exact Hfix].
    split; [intros H; contradiction|].
    intros ->. exfalso. apply Hne. reflexivity.
Qed.

Lemma member_group_change (g : jsonGroupV2Change) :
  member "action" (marshalGroupV2Change g) = Some (encoding.JString (jgcAction g))
  /\ member "who" (marshalGroupV2Change g)
     = (if String.eqb (jgcWho g) "" then None else Some (encoding.JString (jgcWho g)))
  /\ member "invited_by" (marshalGroupV2Change g)
     = (if String.eqb (jgcInvitedBy g) "" then None
        else Some (encoding.JString (jgcInvitedBy g))).
Proof.
  unfold member, marshalGroupV2Change. repeat split; lookup_members.
  - destruct (String.eqb (jgcWho g) ""); reflexivity.
  - destruct (String.eqb (jgcInvitedBy g) ""); reflexivity.
Qed.

(** X14: the record of a group change always has an action member, the
    label of the event's type.  The who and invited_by members are the
    display names of the recipients involved; a recipient that is absent is
    not looked at and its member is left out. *)
Theorem group_change_members (gc : GroupV2Change) :
  let record := marshalGroupV2Change (convertGroupV2Change gc) in
  member "action" record
  = Some (encoding.JString (formatGroupV2ChangeAction (gcType gc)))
  /\ (gcWho gc = None -> member "who" record = None)
  /\ (gcInviter gc = None -> member "invited_by" record = None)
  /\ (forall v, member "who" record = Some v ->
        gcWho gc <> None /\ v = encoding.JString (DetailedDisplayName (gcWho gc)))
  /\ (forall v, member "invited_by" record = Some v ->
        gcInviter gc <> None
        /\ v = encoding.JString (DetailedDisplayName (gcInviter gc))).
Proof.
  intros record. subst record.
  destruct (member_group_change (convertGroupV2Change gc)) as (-> & -> & ->).
  unfold convertGroupV2Change. cbn [jgcAction jgcWho jgcInvitedBy].
  split; [reflexivity|]. split; [intros ->; reflexivity|].
  split; [intros ->; reflexivity|]. split.
  - intros v H. destruct (gcWho gc) as [r|]; [|discriminate H].
    split; [discriminate|].
    destruct (String.eqb (DetailedDisplayName (Some r)) ""); [discriminate H|].
    injection H as <-. reflexivity.
  - intros v H. destruct (gcInviter gc) as [r|]; [|discriminate H].
    split; [discriminate|].
    destruct (String.eqb (DetailedDisplayName (Some r)) ""); [discriminate H|].
    injection H as <-. reflexivity.
Qed.

End Model.

(** ** Worked examples

    Recipients are represented by their names; mentions play no part.  The
    decoder of stored payloads is a table: a payload is named after the
    message it belongs to. *)

Definition exLongTextType : string := "text/x-signal-plain".

Definition exQuote (aci : string) (id : option json.Number) (text : string)
    : quoteJSON unit :=
  mkQuoteJSON [] "" "" aci [] id text.

(** The quote of the specification's example: author [X], ID 500. *)
Definition exQuote500 : quoteJSON unit := exQuote "X" (Some "500") "orig".

(** A quote without author whose ID is the number 1.5. *)
Definition exQuoteNoAuthor : quoteJSON unit := exQuote "" (Some "1.5") "orig".

(** The payload of the message sent at 500 holds a quote of that very
    message; every other payload holds no quote. *)
Definition exUnmarshal (payload : string) : option (option (quoteJSON unit)) :=
  if String.eqb payload "message-500" then Some (Some exQuote500)
  else if String.eqb payload "not-json" then None
  else Some None.

Definition exContext (rows : list (Z * string)) : Context string unit unit :=
  mkContext (mkDatabase None (fun _ => None) rows)
            (fun aci => Ok (Some aci))
            (fun phone => Ok (Some phone))
            (fun _ => Ok [])
            (Ok None).

Definition exEmptyStore : Context string unit unit := exContext [].

(** A cyclic store: the message sent at 500 quotes the message sent at 500. *)
Definition exCyclicStore : Context string unit unit :=
  exContext [(500, "message-500")].

Definition exResolve (c : Context string unit unit) (jqte : quoteJSON unit)
    : option (result (option (Quote string unit))) :=
  parseQuoteJSONFuel exLongTextType exUnmarshal 11 c (Some jqte).

(** The example of the specification: with no message at 500 in the store
    the quote resolves, without a nested quote. *)
Example resolve_with_lookup_miss :
  exResolve exEmptyStore exQuote500 =
  Some (Ok (Some (mkQuote (Some "X") 500 (mkMessageBody "orig" []) [] None))).
Proof. reflexivity. Qed.

(** On the cyclic store the resolver stops after 10 quotes. *)
Example resolve_cyclic_store :
  match exResolve exCyclicStore exQuote500 with
  | Some (Ok (Some q)) => chainLength q = 10%nat
  | _ => False
  end.
Proof. vm_compute. reflexivity. Qed.

(** The counterexample to C2 as stated: the three author fields of the
    quote are empty, and its resolution fails, but with the ID parse error
    and not with the condition [quote without author]. *)
Lemma quote_without_author_counterexample :
  jqAuthorACI exQuoteNoAuthor = ""
  /\ jqAuthorUUID exQuoteNoAuthor = ""
  /\ jqAuthor exQuoteNoAuthor = ""
  /\ exResolve exEmptyStore exQuoteNoAuthor = Some (Err (ErrParseQuoteID ErrSyntax))
  /\ ~ resolves exLongTextType exUnmarshal exEmptyStore (Some exQuoteNoAuthor) 0
         (Err ErrQuoteWithoutAuthor).
Proof.
  repeat split.
  intros H.
  assert (H' : resolves exLongTextType exUnmarshal exEmptyStore (Some exQuoteNoAuthor) 0
                 (Err (ErrParseQuoteID ErrSyntax))) by (exists 11%nat; reflexivity).
  pose proof (resolves_deterministic H H') as E. discriminate E.
Qed.

Lemma quote_without_author_fails_witness :
  parseQuoteJSONWithDepthFuel exLongTextType exUnmarshal 1 exEmptyStore
    (Some (exQuote "" None "orig")) 0
  = Some (Err ErrQuoteWithoutAuthor)
  /\ parseQuoteJSONWithDepthFuel exLongTextType exUnmarshal 1 exEmptyStore
       (Some (exQuote "" (Some "500") "orig")) 0
     = Some (Err ErrQuoteWithoutAuthor)
  /\ parseQuoteJSONWithDepthFuel exLongTextType exUnmarshal 1 exEmptyStore
       (Some exQuoteNoAuthor) 0
     = Some (Err (ErrParseQuoteID ErrSyntax)).
Proof.
  split; [|split].
  - apply (quote_without_author_fails exLongTextType exUnmarshal exEmptyStore
             (exQuote "" None "orig") (depth := 0));
      reflexivity.
  - apply (quote_without_author_fails exLongTextType exUnmarshal exEmptyStore
             (exQuote "" (Some "500") "orig") (depth := 0))
      with (num := "500") (v := 500); reflexivity.
  - apply (quote_without_author_fails exLongTextType exUnmarshal exEmptyStore
             exQuoteNoAuthor (depth := 0))
      with (num := "1.5"); reflexivity.
Defined.

Lemma chain_step_is_non_fatal_witness :
  exists r : result (option (Quote string unit)),
    (forall fuel, (fuelFor 0 <= fuel)%nat ->
       parseQuoteJSONWithDepthFuel exLongTextType exUnmarshal fuel exEmptyStore
         (Some exQuote500) 0
       = Some (Ok (Some (mkQuote (Some "X") 500 (mkMessageBody "orig" []) []
                           (chainLink r)))))
    /\ chainLink r = None.
Proof.
  destruct (chain_step_is_non_fatal exLongTextType exUnmarshal exEmptyStore exQuote500
              (depth := 0) (timeSent := 500) (rpt := Some "X") (mentions := []))
    as (r & Hres & _ & _ & _ & Hmiss & _); try reflexivity.
  exists r. split; [exact Hres|]. apply Hmiss. reflexivity.
Defined.

Lemma quote_id_sentinel_number_or_error_witness :
  parseQuoteJSONWithDepthFuel exLongTextType exUnmarshal 1 exEmptyStore
    (Some (exQuote "X" None "orig")) 0
  = Some (Ok (Some (mkQuote (Some "X") (-1) (mkMessageBody "orig" []) [] None)))
  /\ parseQuoteJSONWithDepthFuel exLongTextType exUnmarshal 1 exEmptyStore
       (Some (exQuote "X" (Some "1.5") "orig")) 0
     = Some (Err (ErrParseQuoteID ErrSyntax)).
Proof.
  split.
  - apply (quote_id_sentinel_number_or_error exLongTextType exUnmarshal exEmptyStore
             (exQuote "X" None "orig") (depth := 0));
      reflexivity.
  - apply (quote_id_sentinel_number_or_error exLongTextType exUnmarshal exEmptyStore
             (exQuote "X" (Some "1.5") "orig") (depth := 0))
      with (num := "1.5"); reflexivity.
Defined.

(** Display names and times for the examples: a recipient is shown by its
    name, a missing one as [Unknown]; every time stamp is shown as the same
    text. *)
Definition exDisplayName (rpt : option string) : string :=
  match rpt with
  | Some name => name
  | None => "Unknown"
  end.

Definition exTimeFormat (msec : Z) : string := "2024-01-01 00:00:00".

Definition exIsOutgoing (msg : Message string unit) : bool :=
  String.eqb (msgType msg) "outgoing".

(** The chain that the cyclic store yields for the example quote. *)
Definition exCyclicChain : Quote string unit :=
  Eval vm_compute in
    match exResolve exCyclicStore exQuote500 with
    | Some (Ok (Some q)) => q
    | _ => mkQuote None 0 (mkMessageBody "" []) [] None
    end.

Lemma resolved_quote_author_is_present_witness :
  qRecipient exCyclicChain <> None
  /\ exists rpts : list string,
       chainAuthors exCyclicChain = map Some rpts
       /\ chainFroms (convertQuoteOf exDisplayName exTimeFormat exCyclicChain)
          = map (fun r => exDisplayName (Some r)) rpts.
Proof.
  apply (resolved_quote_author_is_present exDisplayName exTimeFormat
           (LongTextType := exLongTextType) (unmarshalMessageQuote := exUnmarshal)
           (c := exCyclicStore) (jqte := Some exQuote500) (depth := 0)).
  - split; intros x H; discriminate H.
  - exists 11%nat. reflexivity.
Defined.

(** The message of the specification's example: outgoing, body [hi], sent at
    1000, exported under the name [You]. *)
Definition exMessage : Message string unit :=
  mkMessage (Some "Alice") None 1000 0 "outgoing" (mkMessageBody "hi" [])
            [] [] [] [] None.

Example export_outgoing_message :
  convertMessage exDisplayName exIsOutgoing exTimeFormat "You" exMessage
  = mkJsonMessage "You" "outgoing" "2024-01-01 00:00:00" 1000 "" "hi" [] [] None [] [].
Proof. reflexivity. Qed.

(** Three edits are numbered 3, 2, 1. *)
Example export_three_edits :
  map jedVersion
    (jmsgEdits (convertMessage exDisplayName exIsOutgoing exTimeFormat "You"
                  (mkMessage (Some "Alice") None 1000 0 "outgoing" (mkMessageBody "c" [])
                     [] []
                     [mkEdit 3000 (mkMessageBody "c" []) [] None;
                      mkEdit 2000 (mkMessageBody "b" []) [] None;
                      mkEdit 1000 (mkMessageBody "a" []) [] None]
                     [] None)))
  = [3; 2; 1].
Proof. reflexivity. Qed.

(** With HTML escaping off the markup characters of a body are written as
    they are; the encoder's default would have escaped them. *)
Example markup_is_not_escaped :
  encoding.appendString (encoding.escapeHTML exportConfig) "a<b>&c"
  = (doubleQuote ++ "a<b>&c" ++ doubleQuote)%string
  /\ encoding.appendString true "a<b>&c"
     = (doubleQuote ++ "a\u003cb\u003e\u0026c" ++ doubleQuote)%string.
Proof. split; reflexivity. Qed.

(** A count of zero is left out of the record of a group change; a count of
    three is written. *)
Example group_change_counts :
  marshalGroupV2Change
    (convertGroupV2Change exDisplayName (mkGroupV2Change "pending-add-many" None None 0 "" ""))
  = encoding.JObject [("action", encoding.JString "Invitations sent")]
  /\ marshalGroupV2Change
       (convertGroupV2Change exDisplayName (mkGroupV2Change "pending-add-many" None None 3 "" ""))
     = encoding.JObject [("action", encoding.JString "Invitations sent");
                         ("count", encoding.JInt 3)].
Proof. split; reflexivity. Qed.

(** What [Int64] makes of some ID texts. *)
Example Int64_examples :
  json.Int64 "500" = inr 500
  /\ json.Int64 "-1" = inr (-1)
  /\ json.Int64 "+7" = inr 7
  /\ json.Int64 "9223372036854775807" = inr 9223372036854775807
  /\ json.Int64 "9223372036854775808" = inl ErrRange
  /\ json.Int64 "-9223372036854775808" = inr (-9223372036854775808)
  /\ json.Int64 "1.5" = inl ErrSyntax
  /\ json.Int64 "1e3" = inl ErrSyntax
  /\ json.Int64 "" = inl ErrSyntax.
Proof. repeat split. Qed.

(** The encoder escapes what JSON requires and nothing else: a line feed, a
    double quote and a backslash are escaped, U+2028 is written as an
    escape, a byte that is not UTF-8 becomes U+FFFD, and a two-byte rune is
    copied. *)
Example appendString_examples :
  encoding.appendString false (String "010" "x")
  = (doubleQuote ++ "\nx" ++ doubleQuote)%string
  /\ encoding.appendString false (String "034" (String "092" EmptyString))
     = (doubleQuote ++ String "092" (String "034" (String "092" (String "092" EmptyString)))
          ++ doubleQuote)%string
  /\ encoding.appendString false encoding.lineSeparator
     = (doubleQuote ++ "\u2028" ++ doubleQuote)%string
  /\ encoding.appendString false (String "255" "x")
     = (doubleQuote ++ "\ufffdx" ++ doubleQuote)%string
  /\ encoding.appendString false (String "195" (String "169" EmptyString))
     = (doubleQuote ++ String "195" (String "169" EmptyString) ++ doubleQuote)%string.
Proof. repeat split. Qed.

(** The document of the example message, line by line: the nesting level of
    each line, the line of the body, and the number of spaces each line
    starts with. *)
Definition exExport : jsonExport :=
  mkJsonExport "Alice"
    [convertMessage exDisplayName exIsOutgoing exTimeFormat "You" exMessage].

Example layout_of_an_export :
  map fst (layout false 0 "" (marshalExport exExport) "")
  = [0; 1; 1; 2; 3; 3; 3; 3; 3; 2; 1; 0]%nat
  /\ nth_error (layout false 0 "" (marshalExport exExport) "") 8
     = Some (3%nat, (doubleQuote ++ "body" ++ doubleQuote ++ ": "
                       ++ doubleQuote ++ "hi" ++ doubleQuote)%string)
  /\ map (fun l => (String.length (indentLine l) - String.length (snd l))%nat)
         (layout false 0 "" (marshalExport exExport) "")
     = [0; 2; 2; 4; 6; 6; 6; 6; 6; 4; 2; 0]%nat
  /\ renderExport exExport
     = unlines (map indentLine (layout false 0 "" (marshalExport exExport) "")).
Proof. repeat split; vm_compute; reflexivity. Qed.

(** *** A chain of two quotes

    The message sent at 200 quotes a message of [Y] sent at 100, which is
    not in the store.  The raw quote of the example fills all three author
    fields and has a long-message attachment besides a picture. *)

Definition exQuote200 : quoteJSON unit :=
  mkQuoteJSON [mkQuoteAttachmentJSON "text/x-signal-plain" "long.txt";
               mkQuoteAttachmentJSON "image/png" "cat.png"]
              "+31600000000" "uuid-of-X" "X" [] (Some "200") "second".

Definition exUnmarshalChain (payload : string) : option (option (quoteJSON unit)) :=
  if String.eqb payload "message-200" then Some (Some (exQuote "Y" (Some "100") "first"))
  else Some None.

Definition exChainStore : Context string unit unit := exContext [(200, "message-200")].

Definition exChainResolved : Quote string unit :=
  mkQuote (Some "X") 200 (mkMessageBody "second" [])
          [mkQuoteAttachment "cat.png" "image/png"]
          (Some (mkQuote (Some "Y") 100 (mkMessageBody "first" []) [] None)).

Example resolve_chain_of_two :
  parseQuoteJSONFuel exLongTextType exUnmarshalChain 11 exChainStore (Some exQuote200)
  = Some (Ok (Some exChainResolved)).
Proof. reflexivity. Qed.

Lemma quote_attachments_drop_long_text_witness :
  qAttachments exChainResolved = [mkQuoteAttachment "cat.png" "image/png"]
  /\ Forall (fun att => qaContentType att <> exLongTextType) (qAttachments exChainResolved).
Proof.
  destruct (quote_attachments_drop_long_text
              (LongTextType := exLongTextType) (unmarshalMessageQuote := exUnmarshalChain)
              (c := exChainStore) (j := exQuote200) (depth := 0) (q := exChainResolved))
    as (H1 & H2 & _).
  - exists 11%nat. reflexivity.
  - split; [exact H1|exact H2].
Defined.

Lemma quote_author_field_priority_witness :
  recipientFromACI exChainStore "X" = Ok (qRecipient exChainResolved).
Proof.
  destruct (quote_author_field_priority
              (LongTextType := exLongTextType) (unmarshalMessageQuote := exUnmarshalChain)
              (c := exChainStore) (j := exQuote200) (depth := 0) (q := exChainResolved))
    as (H1 & _).
  - exists 11%nat. reflexivity.
  - apply H1. discriminate.
Defined.

Lemma resolution_error_causes_witness :
  0 < maxDepth
  /\ ((exists num cause, jqID exQuoteNoAuthor = Some num /\ json.Int64 num = inl cause
                         /\ ErrParseQuoteID ErrSyntax = ErrParseQuoteID cause)
      \/ quoteAuthor exEmptyStore exQuoteNoAuthor = Err (ErrParseQuoteID ErrSyntax)
      \/ parseMentionJSON exEmptyStore (jqMentions exQuoteNoAuthor)
         = Err (ErrParseQuoteID ErrSyntax)).
Proof.
  apply (resolution_error_causes
           (LongTextType := exLongTextType) (unmarshalMessageQuote := exUnmarshal)
           (c := exEmptyStore) (j := exQuoteNoAuthor) (depth := 0)
           (e := ErrParseQuoteID ErrSyntax)).
  exists 1%nat. reflexivity.
Defined.

Lemma resolution_depends_on_store_only_for_link_witness :
  exists r2,
    resolves exLongTextType exUnmarshal exCyclicStore (Some exQuote500) 0 r2
    /\ sameButLink
         (Ok (Some (mkQuote (Some "X") 500 (mkMessageBody "orig" []) [] None))) r2.
Proof.
  apply (resolution_depends_on_store_only_for_link
           (LongTextType := exLongTextType) (unmarshalMessageQuote := exUnmarshal)
           (c1 := exEmptyStore) exCyclicStore (j := exQuote500) (depth := 0)).
  - reflexivity.
  - reflexivity.
  - reflexivity.
  - exists 11%nat. reflexivity.
Defined.

Lemma nested_quote_comes_from_store_witness :
  0 < qTimeSent exChainResolved
  /\ exists (payload : string) (j' : quoteJSON unit),
       stepRow (dbMessages (db exChainStore)) (qTimeSent exChainResolved) = Some payload
       /\ exUnmarshalChain payload = Some (Some j')
       /\ jqText j' = "first".
Proof.
  destruct (nested_quote_comes_from_store
              (LongTextType := exLongTextType) (unmarshalMessageQuote := exUnmarshalChain)
              (c := exChainStore) (j := exQuote200) (depth := 0) (q := exChainResolved)
              (q' := mkQuote (Some "Y") 100 (mkMessageBody "first" []) [] None))
    as (Hpos & _ & _ & payload & j' & Hrow & _ & Hun & _ & Htext).
  - exists 11%nat. reflexivity.
  - reflexivity.
  - split; [exact Hpos|]. exists payload, j'. repeat split; try assumption.
    symmetry. exact Htext.
Defined.

Lemma exported_quote_reflects_raw_quote_witness :
  jquoteBody (convertQuoteOf exDisplayName exTimeFormat exChainResolved) = "second"
  /\ jquoteFrom (convertQuoteOf exDisplayName exTimeFormat exChainResolved) = "X"
  /\ jquoteAttachments (convertQuoteOf exDisplayName exTimeFormat exChainResolved)
     = [mkJsonAttachment "cat.png" "image/png" 0].
Proof.
  destruct (exported_quote_reflects_raw_quote
              (LongTextType := exLongTextType) (unmarshalMessageQuote := exUnmarshalChain)
              exDisplayName exTimeFormat
              (c := exChainStore) (j := exQuote200) (depth := 0) (q := exChainResolved))
    as (Hbody & _ & Hfrom & Hatts & _).
  - exists 11%nat. reflexivity.
  - split; [exact Hbody|]. split; [exact Hfrom|exact Hatts].
Defined.

Lemma exported_quote_depth_bounded_witness :
  (List.length (chainFroms (convertQuoteOf exDisplayName exTimeFormat exCyclicChain))
   <= 10)%nat.
Proof.
  apply (exported_quote_depth_bounded
           (LongTextType := exLongTextType) (unmarshalMessageQuote := exUnmarshal)
           exDisplayName exTimeFormat
           (c := exCyclicStore) (jqte := Some exQuote500) (q := exCyclicChain)).
  exists 11%nat. reflexivity.
Defined.

Lemma sender_label_witness :
  exists jmsg,
    nth_error
      (map (convertMessage exDisplayName exIsOutgoing exTimeFormat "You") [exMessage]) 0
    = Some jmsg
    /\ jmsgFrom jmsg = "You".
Proof.
  destruct (sender_label exDisplayName exIsOutgoing exTimeFormat exEmptyStore [exMessage]
              (e := mkJsonExport "Alice"
                      (map (convertMessage exDisplayName exIsOutgoing exTimeFormat "You")
                           [exMessage]))
              0 (msg := exMessage))
    as (jmsg & Hnth & _ & _ & Hout & _).
  - reflexivity.
  - reflexivity.
  - exists jmsg. split; [exact Hnth|].
    destruct (Hout eq_refl) as (_ & Hnone & _). apply Hnone. reflexivity.
Defined.

(** At depth 8 the cyclic store yields a chain of two quotes, the beginning
    of the chain of ten that it yields at depth 0. *)
Lemma depth_only_truncates_the_chain_witness :
  exists q2,
    resolves exLongTextType exUnmarshal exCyclicStore (Some exQuote500) 0 (Ok (Some q2))
    /\ isChainPrefix
         (mkQuote (Some "X") 500 (mkMessageBody "orig" []) []
            (Some (mkQuote (Some "X") 500 (mkMessageBody "orig" []) [] None)))
         q2.
Proof.
  apply (depth_only_truncates_the_chain
           (LongTextType := exLongTextType) (unmarshalMessageQuote := exUnmarshal)
           (c := exCyclicStore) (j := exQuote500) (depth := 8) (depth' := 0)).
  - lia.
  - exists 3%nat. reflexivity.
Defined.
